(** * chatask: the streaming message client and the conversation cache

  A shallow embedding of [src/api/chat.ts] (the [ChatAPI.sendMessageStream]
  frame loop) and of [src/contexts/ChatContext.tsx] (the React Query cache
  updates made by the chat context), with the properties the specification
  states about them.

  A JavaScript string is a sequence of UTF-16 code units.  The text a user
  types, which the sources measure, cut and trim ([length], [substring],
  [trim]), is modelled as that sequence ([Utf16.text]).  The texts the
  sources only compare, join or scan for ASCII markers (identifiers,
  timestamps, the lines of the wire format, the messages of the
  authentication provider) are modelled by [string], the operations
  ([split], [startsWith], [slice], [+]) acting position by position.  A
  chunk of the response body is the text that [decoder.decode(value)]
  returns for it; on the 7-bit wire format of the streaming endpoint one
  byte is one character. *)

From Stdlib Require Import Ascii String.
From stdpp Require Import base option list strings gmap pretty.

Set Warnings "-register-all".

(** ** JavaScript string primitives used by the sources *)

Module JS.

Definition newline : ascii := "010"%char.

(** [s.split(sep)] for a one-character separator: the pieces between the
    separators, in order; never the empty array. *)
Fixpoint split (sep : ascii) (s : string) : list string :=
  match s with
  | EmptyString => [EmptyString]
  | String c s' =>
      if Ascii.eqb c sep then EmptyString :: split sep s'
      else match split sep s' with
           | [] => [String c EmptyString]
           | l :: ls => String c l :: ls
           end
  end.

(** [s.startsWith(p)] *)
Definition startsWith (s p : string) : bool := String.prefix p s.

(** [s.slice(n)] for [0 <= n]: the text from position [n] on. *)
Fixpoint slice (n : nat) (s : string) : string :=
  match n, s with
  | O, _ => s
  | S _, EmptyString => EmptyString
  | S n', String _ s' => slice n' s'
  end.

(** The text of a stream given in pieces, joined with no separator. *)
Definition concat (chunks : list string) : string :=
  foldr String.append EmptyString chunks.

End JS.

(** ** Text typed by the user: UTF-16 code units *)

Module Utf16.

(** A JavaScript string as the sequence of its code units, each a number
    below 65536.  [length] counts code units and [substring] cuts between
    them, also inside a surrogate pair. *)
Definition text : Type := list N.

(** A string literal of the sources; the literals are ASCII, one code unit
    per character. *)
Definition literal (s : string) : text :=
  List.map N_of_ascii (list_ascii_of_string s).

(** [s.substring(0, n)] *)
Definition substring0 (n : nat) (s : text) : text := take n s.

(** The code units [trim] removes: WhiteSpace and LineTerminator of
    ECMAScript.  Tab, line feed, vertical tab, form feed, carriage return,
    space, no-break space, U+1680, U+2000 to U+200A, the line and paragraph
    separators U+2028 and U+2029, U+202F, U+205F, U+3000 and the byte order
    mark U+FEFF. *)
Definition isWhiteSpace (c : N) : bool :=
  ((9 <=? c)%N && (c <=? 13)%N)
  || (c =? 32)%N || (c =? 160)%N || (c =? 5760)%N
  || ((8192 <=? c)%N && (c <=? 8202)%N)
  || (c =? 8232)%N || (c =? 8233)%N || (c =? 8239)%N || (c =? 8287)%N
  || (c =? 12288)%N || (c =? 65279)%N.

(** [s.trimStart()], [s.trimEnd()] and [s.trim()] *)
Fixpoint trimStart (s : text) : text :=
  match s with
  | [] => []
  | c :: rest => if isWhiteSpace c then trimStart rest else s
  end.

Fixpoint trimEnd (s : text) : text :=
  match s with
  | [] => []
  | c :: rest =>
      match trimEnd rest with
      | [] => if isWhiteSpace c then [] else [c]
      | kept => c :: kept
      end
  end.

Definition trim (s : text) : text := trimEnd (trimStart s).

(** Truthiness of a string. *)
Definition nonEmpty (s : text) : bool :=
  match s with
  | [] => false
  | _ :: _ => true
  end.

End Utf16.

(** ** JSON values and property access *)

Module Json.

(** A number keeps its literal: the sources never compute with one. *)
Inductive JSON : Type :=
| JNull
| JBool (b : bool)
| JNumber (literal : string)
| JString (s : string)
| JArray (items : list JSON)
| JObject (fields : list (string * JSON)).

(** A JavaScript value as the callbacks receive it: a parsed JSON value, or
    [undefined] for a missing property. *)
Inductive JSValue : Type :=
| JSUndefined
| JSValue_of (j : JSON).

(** The own property [key] of an object literal read by [JSON.parse]: the
    last occurrence of a repeated key wins. *)
Fixpoint lookupField (key : string) (fields : list (string * JSON)) : option JSON :=
  match fields with
  | [] => None
  | (k, v) :: rest =>
      match lookupField key rest with
      | Some v' => Some v'
      | None => if String.eqb k key then Some v else None
      end
  end.

(** [data.key] for a non-index, non-builtin [key]: [None] is the TypeError
    raised on [null]; primitives and arrays have no such property. *)
Definition member (data : JSON) (key : string) : option JSValue :=
  match data with
  | JNull => None
  | JObject fields =>
      Some (match lookupField key fields with
            | Some v => JSValue_of v
            | None => JSUndefined
            end)
  | _ => Some JSUndefined
  end.

(** [data.key] once [data] is known not to be [null]. *)
Definition get (data : JSON) (key : string) : JSValue :=
  default JSUndefined (member data key).

(** *** A reference reader for JSON text

    [JSON.parse] belongs to the platform, so the model of [chat.ts] below
    takes it as a parameter.  [parse] is a reader for the 7-bit JSON the
    streaming endpoint emits (no [\u] escapes); it is what the model is run
    with on concrete streams. *)

Definition quote : ascii := "034"%char.
Definition backslash : ascii := "092"%char.

Definition isWhitespace (c : ascii) : bool :=
  Ascii.eqb c " " || Ascii.eqb c "009" || Ascii.eqb c "010" || Ascii.eqb c "013".

Fixpoint skipWhitespace (s : string) : string :=
  match s with
  | String c r => if isWhitespace c then skipWhitespace r else s
  | EmptyString => s
  end.

Definition unescape (c : ascii) : option ascii :=
  if Ascii.eqb c quote then Some quote
  else if Ascii.eqb c backslash then Some backslash
  else if Ascii.eqb c "/" then Some "/"%char
  else if Ascii.eqb c "b" then Some "008"%char
  else if Ascii.eqb c "f" then Some "012"%char
  else if Ascii.eqb c "n" then Some "010"%char
  else if Ascii.eqb c "r" then Some "013"%char
  else if Ascii.eqb c "t" then Some "009"%char
  else None.

(** The characters of a string literal after its opening quote, and the text
    after its closing quote. *)
Fixpoint readString (s : string) : option (string * string) :=
  match s with
  | EmptyString => None
  | String c r =>
      if Ascii.eqb c quote then Some (EmptyString, r)
      else if Ascii.eqb c backslash then
        match r with
        | String e r' =>
            match unescape e, readString r' with
            | Some ch, Some (str, rest) => Some (String ch str, rest)
            | _, _ => None
            end
        | EmptyString => None
        end
      else if (nat_of_ascii c <? 32)%nat then None
      else match readString r with
           | Some (str, rest) => Some (String c str, rest)
           | None => None
           end
  end.

Definition isDigit (c : ascii) : bool :=
  (48 <=? nat_of_ascii c)%nat && (nat_of_ascii c <=? 57)%nat.

Fixpoint readDigits (s : string) : string * string :=
  match s with
  | String c r =>
      if isDigit c then let '(ds, rest) := readDigits r in (String c ds, rest)
      else (EmptyString, s)
  | EmptyString => (EmptyString, s)
  end.

(** A number literal: an optional minus sign, an integer part with no
    leading zero, an optional fraction and an optional exponent. *)
Definition readNumber (s : string) : option (string * string) :=
  let '(sign, s1) :=
    match s with
    | String c r => if Ascii.eqb c "-" then ("-", r) else (EmptyString, s)
    | EmptyString => (EmptyString, s)
    end in
  let '(int, s2) := readDigits s1 in
  let intOk :=
    match int with
    | EmptyString => false
    | String c EmptyString => true
    | String c _ => negb (Ascii.eqb c "0")
    end in
  if negb intOk then None else
  let fracPart :=
    match s2 with
    | String c r =>
        if Ascii.eqb c "." then
          let '(ds, rest) := readDigits r in
          match ds with
          | EmptyString => None
          | _ => Some (String c ds, rest)
          end
        else Some (EmptyString, s2)
    | EmptyString => Some (EmptyString, s2)
    end in
  match fracPart with
  | None => None
  | Some (frac, s3) =>
      let expPart :=
        match s3 with
        | String c r =>
            if Ascii.eqb c "e" || Ascii.eqb c "E" then
              let '(sg, r1) :=
                match r with
                | String d r' =>
                    if Ascii.eqb d "+" || Ascii.eqb d "-"
                    then (String d EmptyString, r') else (EmptyString, r)
                | EmptyString => (EmptyString, r)
                end in
              let '(ds, rest) := readDigits r1 in
              match ds with
              | EmptyString => None
              | _ => Some (String c (sg +:+ ds), rest)
              end
            else Some (EmptyString, s3)
        | EmptyString => Some (EmptyString, s3)
        end in
      match expPart with
      | None => None
      | Some (ex, s4) => Some (sign +:+ int +:+ frac +:+ ex, s4)
      end
  end.

Definition readKeyword (kw : string) (v : JSON) (s : string) : option (JSON * string) :=
  if String.prefix kw s then Some (v, JS.slice (String.length kw) s) else None.

Fixpoint readValue (fuel : nat) (s : string) {struct fuel} : option (JSON * string) :=
  match fuel with
  | O => None
  | S n =>
      match skipWhitespace s with
      | EmptyString => None
      | String c r =>
          if Ascii.eqb c "n" then readKeyword "null" JNull (String c r)
          else if Ascii.eqb c "t" then readKeyword "true" (JBool true) (String c r)
          else if Ascii.eqb c "f" then readKeyword "false" (JBool false) (String c r)
          else if Ascii.eqb c quote then
            match readString r with
            | Some (str, rest) => Some (JString str, rest)
            | None => None
            end
          else if Ascii.eqb c "[" then
            match skipWhitespace r with
            | String d r' =>
                if Ascii.eqb d "]" then Some (JArray [], r')
                else match readElements n r with
                     | Some (vs, rest) => Some (JArray vs, rest)
                     | None => None
                     end
            | EmptyString => None
            end
          else if Ascii.eqb c "{" then
            match skipWhitespace r with
            | String d r' =>
                if Ascii.eqb d "}" then Some (JObject [], r')
                else match readMembers n r with
                     | Some (fs, rest) => Some (JObject fs, rest)
                     | None => None
                     end
            | EmptyString => None
            end
          else match readNumber (String c r) with
               | Some (lit, rest) => Some (JNumber lit, rest)
               | None => None
               end
      end
  end
with readElements (fuel : nat) (s : string) {struct fuel} : option (list JSON * string) :=
  match fuel with
  | O => None
  | S n =>
      match readValue n s with
      | Some (v, r) =>
          match skipWhitespace r with
          | String d r' =>
              if Ascii.eqb d "," then
                match readElements n r' with
                | Some (vs, rest) => Some (v :: vs, rest)
                | None => None
                end
              else if Ascii.eqb d "]" then Some ([v], r')
              else None
          | EmptyString => None
          end
      | None => None
      end
  end
with readMembers (fuel : nat) (s : string) {struct fuel}
  : option (list (string * JSON) * string) :=
  match fuel with
  | O => None
  | S n =>
      match skipWhitespace s with
      | String q r =>
          if Ascii.eqb q quote then
            match readString r with
            | Some (key, r1) =>
                match skipWhitespace r1 with
                | String colon r2 =>
                    if Ascii.eqb colon ":" then
                      match readValue n r2 with
                      | Some (v, r3) =>
                          match skipWhitespace r3 with
                          | String d r4 =>
                              if Ascii.eqb d "," then
                                match readMembers n r4 with
                                | Some (fs, rest) => Some ((key, v) :: fs, rest)
                                | None => None
                                end
                              else if Ascii.eqb d "}" then Some ([(key, v)], r4)
                              else None
                          | EmptyString => None
                          end
                      | None => None
                      end
                    else None
                | EmptyString => None
                end
            | None => None
            end
          else None
      | EmptyString => None
      end
  end.

(** The whole text must be one value, up to surrounding whitespace.  Every
    call of the readers consumes a character within two levels of recursion,
    so twice the length of the text is fuel enough. *)
Definition parse (text : string) : option JSON :=
  match readValue (2 * String.length text + 2) text with
  | Some (v, rest) =>
      match skipWhitespace rest with
      | EmptyString => Some v
      | _ => None
      end
  | None => None
  end.

(** Test inputs are written with apostrophes where JSON has quotes. *)
Fixpoint dq (s : string) : string :=
  match s with
  | EmptyString => EmptyString
  | String c r => String (if Ascii.eqb c "'" then quote else c) (dq r)
  end.

End Json.
Export Json.

(** ** [src/api/chat.ts]: the streaming message client *)

Module ChatAPI.

(** What [fetch] resolves to, as far as [sendMessageStream] looks at it.
    [body] is [None] when [response.body] is null; otherwise it holds the
    chunks that successive [reader.read()] calls deliver, already decoded,
    up to the read that reports [done].  A read that rejects instead is the
    [readFailure] of a [Delivery], below. *)
Record Response : Type := {
  ok : bool;
  statusText : string;
  body : option (list string)
}.

(** The collaborators of one call: the signed-in user's id token
    ([auth.currentUser], [None] when nobody is signed in), the base address
    of the backend, and the backend's answer to a POST of [message] to an
    address with a bearer token. *)
Record Env : Type := {
  currentUser : option string;
  API_BASE_URL : string;
  fetch : string -> string -> string -> Response
}.

(** How the promise returned by an operation settles. *)
Inductive Outcome : Type :=
| Resolved
| Rejected (error : string).

(** How an awaited promise with a value settles. *)
Inductive Settled (A : Type) : Type :=
| Fulfilled (value : A)
| Failed (reason : string).
Arguments Fulfilled {A} _.
Arguments Failed {A} _.

(** A response together with the fate of its body stream: [body] of
    [received] holds the chunks the successful reads deliver, and
    [readFailure] is the reason with which the read after them rejects,
    [None] when that read reports [done]. *)
Record Delivery : Type := {
  received : Response;
  readFailure : option string
}.

(** The collaborators of one call with every await that can reject:
    [idToken] is [None] when nobody is signed in and otherwise what
    [getAuthHeaders] settles to (the import of the authentication module or
    [user.getIdToken()] may reject); [request] is what [fetch] settles to
    (it rejects when the network fails). *)
Record Network : Type := {
  idToken : option (Settled string);
  baseUrl : string;
  request : string -> string -> string -> Settled Delivery
}.

(** The five optional callbacks, as transformers of the caller's state
    [St].  An absent callback is [None]; [f?.(x)] then does nothing.  The
    callbacks are total: one that throws would be caught by the [catch] of
    the loop body, and the callbacks the chat context passes do not throw on
    arguments of their declared types. *)
Record Callbacks (St : Type) : Type := {
  onUserMessage : option (JSValue -> St -> St);
  onAssistantMessageStart : option (JSValue -> JSValue -> St -> St);
  onContent : option (JSValue -> JSValue -> St -> St);
  onEnd : option (JSValue -> St -> St);
  onError : option (JSValue -> St -> St)
}.
Arguments onUserMessage {St} _.
Arguments onAssistantMessageStart {St} _.
Arguments onContent {St} _.
Arguments onEnd {St} _.
Arguments onError {St} _.

(** [f?.(a)] and [f?.(a, b)] *)
Definition call1 {St A : Type} (f : option (A -> St -> St)) (a : A) (st : St) : St :=
  match f with
  | Some g => g a st
  | None => st
  end.

Definition call2 {St A B : Type} (f : option (A -> B -> St -> St)) (a : A) (b : B) (st : St) : St :=
  match f with
  | Some g => g a b st
  | None => st
  end.

Definition streamUrl (env : Env) (conversationId : string) : string :=
  API_BASE_URL env +:+ "/api/conversations/" +:+ conversationId +:+ "/messages/stream".

Section FrameLoop.

(** [JSON.parse]; [None] stands for the SyntaxError it throws. *)
Variable JSON_parse : string -> option JSON.

Context {St : Type}.
Variable cb : Callbacks St.

(** The [switch (data.type)] of the loop body.  Reading [data.type] of
    [null] throws a TypeError inside the [try], which the [catch] logs; a
    [type] matching no [case] falls out of the [switch]. *)
Definition dispatch (data : JSON) (st : St) : St :=
  match member data "type" with
  | Some (JSValue_of (JString type)) =>
      if String.eqb type "user_message" then
        call1 (onUserMessage cb) (get data "message") st
      else if String.eqb type "assistant_message_start" then
        call2 (onAssistantMessageStart cb) (get data "messageId") (get data "timestamp") st
      else if String.eqb type "content" then
        call2 (onContent cb) (get data "content") (get data "messageId") st
      else if String.eqb type "end" then
        call1 (onEnd cb) (get data "messageId") st
      else if String.eqb type "error" then
        call1 (onError cb) (get data "error") st
      else st
  | _ => st
  end.

(** [try { const data = JSON.parse(payload); switch ... } catch (e) { log }] *)
Definition handlePayload (payload : string) (st : St) : St :=
  match JSON_parse payload with
  | Some data => dispatch data st
  | None => st
  end.

(** The body of [for (const line of lines)]. *)
Definition handleLine (line : string) (st : St) : St :=
  if JS.startsWith line "data: " then handlePayload (JS.slice 6 line) st else st.

(** One turn of the [while] loop: [chunk.split('\n')] and the [for]. *)
Definition handleChunk (chunk : string) (st : St) : St :=
  foldl (fun acc line => handleLine line acc) st (JS.split JS.newline chunk).

(** The [while (!done)] loop over the chunks the reader delivers. *)
Definition readLoop (chunks : list string) (st : St) : St :=
  foldl (fun acc chunk => handleChunk chunk acc) st chunks.

(** [ChatAPI.sendMessageStream]: the outcome of the returned promise and
    the caller's state after it settles.  The [finally] releases the lock of
    the reader, which is no part of the caller's state. *)
Definition sendMessageStream (env : Env) (conversationId message : string) (st : St)
  : Outcome * St :=
  match currentUser env with
  | None => (Rejected "User not authenticated", st)
  | Some token =>
      let response := fetch env (streamUrl env conversationId) token message in
      if negb (ok response) then
        (Rejected ("Failed to send streaming message: " +:+ statusText response), st)
      else
        match body response with
        | None => (Rejected "Failed to get response reader", st)
        | Some chunks => (Resolved, readLoop chunks st)
        end
  end.

(** [ChatAPI.sendMessageStream] over a [Network].  A rejected await before
    the loop rejects the promise with its reason.  A read that rejects
    leaves the [while] loop through the [finally], which has no [catch]:
    the promise rejects with the reason of the read, after the callbacks
    for the chunks read before it have run. *)
Definition sendMessageStreamOver (net : Network) (conversationId message : string) (st : St)
  : Outcome * St :=
  match idToken net with
  | None => (Rejected "User not authenticated", st)
  | Some (Failed reason) => (Rejected reason, st)
  | Some (Fulfilled token) =>
      match request net
              (baseUrl net +:+ "/api/conversations/" +:+ conversationId +:+ "/messages/stream")
              token message with
      | Failed reason => (Rejected reason, st)
      | Fulfilled delivery =>
          let response := received delivery in
          if negb (ok response) then
            (Rejected ("Failed to send streaming message: " +:+ statusText response), st)
          else
            match body response with
            | None => (Rejected "Failed to get response reader", st)
            | Some chunks =>
                (match readFailure delivery with
                 | None => Resolved
                 | Some reason => Rejected reason
                 end,
                 readLoop chunks st)
            end
      end
  end.

End FrameLoop.

(** The network in which no await rejects: the collaborators of an [Env],
    every body read to its end. *)
Definition steady (env : Env) : Network :=
  {| idToken := option_map Fulfilled (currentUser env);
     baseUrl := API_BASE_URL env;
     request := fun url token message =>
       Fulfilled {| received := fetch env url token message; readFailure := None |} |}.

(** *** The frames the loop sees *)

(** The payloads one chunk contributes: its lines that start with the
    prefix, without the prefix. *)
Definition payloads (chunk : string) : list string :=
  List.map (JS.slice 6)
    (List.filter (fun line => JS.startsWith line "data: ") (JS.split JS.newline chunk)).

(** The ordered sequence of payload strings the loop parses for a stream
    delivered as [chunks]. *)
Definition decodeFrames (chunks : list string) : list string :=
  List.flat_map payloads chunks.

(** A chunk boundary on a line boundary: the chunk ends with a newline
    (or is empty). *)
Fixpoint lineAligned (chunk : string) : bool :=
  match chunk with
  | EmptyString => true
  | String c rest =>
      match rest with
      | EmptyString => Ascii.eqb c JS.newline
      | String _ _ => lineAligned rest
      end
  end.

(** The response body of the wire contract: newline-terminated lines, each
    blank or [data: ] followed by JSON text. *)
Definition wellFormedLine (line : string) : bool :=
  String.eqb line "" ||
  (JS.startsWith line "data: " && bool_decide (is_Some (Json.parse (JS.slice 6 line)))).

Definition wellFormedStream (stream : string) : bool :=
  match List.rev (JS.split JS.newline stream) with
  | unterminated :: lines => String.eqb unterminated "" && List.forallb wellFormedLine lines
  | [] => false
  end.

(** One frame of the wire format: [data: ], the payload, a newline. *)
Definition frameLine (payload : string) : string :=
  "data: " +:+ payload +:+ String JS.newline EmptyString.

(** A text that fits on one line. *)
Fixpoint noNewline (s : string) : bool :=
  match s with
  | EmptyString => true
  | String c rest => negb (Ascii.eqb c JS.newline) && noNewline rest
  end.

(** The [case] labels of the [switch]. *)
Definition knownTypes : list string :=
  ["user_message"; "assistant_message_start"; "content"; "end"; "error"].

(** *** Recording callbacks *)

(** One callback invocation with its arguments. *)
Inductive Call : Type :=
| UserMessageCall (message : JSValue)
| AssistantMessageStartCall (messageId timestamp : JSValue)
| ContentCall (content messageId : JSValue)
| EndCall (messageId : JSValue)
| ErrorCall (error : JSValue).

(** Five callbacks that only append their invocation to a trace. *)
Definition recorder : Callbacks (list Call) := {|
  onUserMessage := Some (fun m tr => tr ++ [UserMessageCall m]);
  onAssistantMessageStart := Some (fun i t tr => tr ++ [AssistantMessageStartCall i t]);
  onContent := Some (fun c i tr => tr ++ [ContentCall c i]);
  onEnd := Some (fun i tr => tr ++ [EndCall i]);
  onError := Some (fun e tr => tr ++ [ErrorCall e])
|}.

(** The callback a recorded invocation stands for, run on the caller's
    state. *)
Definition replay {St : Type} (cb : Callbacks St) (st : St) (c : Call) : St :=
  match c with
  | UserMessageCall m => call1 (onUserMessage cb) m st
  | AssistantMessageStartCall i t => call2 (onAssistantMessageStart cb) i t st
  | ContentCall c i => call2 (onContent cb) c i st
  | EndCall i => call1 (onEnd cb) i st
  | ErrorCall e => call1 (onError cb) e st
  end.

(** The invocations the loop makes for a stream delivered as [chunks]. *)
Definition trace (JSON_parse : string -> option JSON) (chunks : list string) : list Call :=
  readLoop JSON_parse recorder chunks [].

(** The table of the event types as the specification gives it: each type
    with the invocation a frame of that type stands for. *)
Definition callTable : list (string * (JSON -> Call)) :=
  [("user_message", fun data => UserMessageCall (get data "message"));
   ("assistant_message_start",
    fun data => AssistantMessageStartCall (get data "messageId") (get data "timestamp"));
   ("content", fun data => ContentCall (get data "content") (get data "messageId"));
   ("end", fun data => EndCall (get data "messageId"));
   ("error", fun data => ErrorCall (get data "error"))].

(** The invocation a parsed frame stands for: the row of its [type], none
    when the frame is no object or its [type] is no string of the table. *)
Definition callOf (data : JSON) : option Call :=
  match data with
  | JObject fields =>
      match lookupField "type" fields with
      | Some (JString type) =>
          match List.find (fun row => String.eqb (fst row) type) callTable with
          | Some row => Some (snd row data)
          | None => None
          end
      | _ => None
      end
  | _ => None
  end.

(** The invocations the specification prescribes for a sequence of
    payloads: one for each payload that parses to a frame of the table, in
    order. *)
Definition callsOf (JSON_parse : string -> option JSON) (payloads : list string) : list Call :=
  omap (fun payload => JSON_parse payload ≫= callOf) payloads.

End ChatAPI.

(** ** [src/contexts/ChatContext.tsx]: the conversation cache *)

Module ChatContext.

Inductive Role : Type := RoleUser | RoleAssistant.

Module Message.
Record t : Type := {
  id : string;
  role : Role;
  content : string;
  timestamp : string;
  isStreaming : option bool
}.

(** [{ ...msg, content }] and [{ ...msg, isStreaming }] *)
Definition withContent (msg : t) (c : string) : t :=
  {| id := id msg; role := role msg; content := c;
     timestamp := timestamp msg; isStreaming := isStreaming msg |}.

Definition withIsStreaming (msg : t) (b : bool) : t :=
  {| id := id msg; role := role msg; content := content msg;
     timestamp := timestamp msg; isStreaming := Some b |}.
End Message.

Module Conversation.
Record t : Type := {
  id : string;
  title : Utf16.text;
  messages : list Message.t;
  createdAt : string;
  updatedAt : string;
  userId : string
}.

(** [{ ...conv, updatedAt }], [{ ...conv, title }] and
    [{ ...conv, messages: [], title: 'New Chat', updatedAt }] *)
Definition withUpdatedAt (conv : t) (now : string) : t :=
  {| id := id conv; title := title conv; messages := messages conv;
     createdAt := createdAt conv; updatedAt := now; userId := userId conv |}.

Definition withTitle (conv : t) (newTitle : Utf16.text) : t :=
  {| id := id conv; title := newTitle; messages := messages conv;
     createdAt := createdAt conv; updatedAt := updatedAt conv; userId := userId conv |}.

Definition cleared (conv : t) (now : string) : t :=
  {| id := id conv; title := Utf16.literal "New Chat"; messages := [];
     createdAt := createdAt conv; updatedAt := now; userId := userId conv |}.
End Conversation.

(** The React Query cache under the two families of keys the context uses:
    [QUERY_KEYS.conversations] and [QUERY_KEYS.messages(conversationId)].
    A key with no data is [None], respectively absent from the map. *)
Record QueryClient : Type := {
  conversationsData : option (list Conversation.t);
  messagesData : gmap string (list Message.t)
}.

(** [queryClient.setQueryData(QUERY_KEYS.conversations, (old = []) => f(old))] *)
Definition setConversations (f : list Conversation.t -> list Conversation.t)
  (qc : QueryClient) : QueryClient :=
  {| conversationsData := Some (f (default [] (conversationsData qc)));
     messagesData := messagesData qc |}.

(** [queryClient.setQueryData(QUERY_KEYS.messages(id), (old = []) => f(old))] *)
Definition setMessages (conversationId : string) (f : list Message.t -> list Message.t)
  (qc : QueryClient) : QueryClient :=
  {| conversationsData := conversationsData qc;
     messagesData :=
       <[conversationId := f (default [] (messagesData qc !! conversationId))]>
         (messagesData qc) |}.

(** [queryClient.removeQueries({ queryKey: QUERY_KEYS.messages(id) })] *)
Definition removeMessages (conversationId : string) (qc : QueryClient) : QueryClient :=
  {| conversationsData := conversationsData qc;
     messagesData := delete conversationId (messagesData qc) |}.

(** What a query of the cache yields with the [= []] default of the hooks. *)
Definition conversationsOf (qc : QueryClient) : list Conversation.t :=
  default [] (conversationsData qc).

Definition messagesOf (qc : QueryClient) (conversationId : string) : list Message.t :=
  default [] (messagesData qc !! conversationId).

Record ChatState : Type := {
  currentConversationId : option string;
  isStreaming : bool;
  streamingMessageId : option string;
  error : option string
}.

(** The provider's mutable data: the query cache and the [useState] cell. *)
Record Store : Type := {
  queryClient : QueryClient;
  state : ChatState
}.

Definition setState (f : ChatState -> ChatState) (s : Store) : Store :=
  {| queryClient := queryClient s; state := f (state s) |}.

Definition updateCache (f : QueryClient -> QueryClient) (s : Store) : Store :=
  {| queryClient := f (queryClient s); state := state s |}.

(** [prev => ({ ...prev, currentConversationId })] and its siblings. *)
Definition withCurrentConversationId (c : option string) (prev : ChatState) : ChatState :=
  {| currentConversationId := c; isStreaming := isStreaming prev;
     streamingMessageId := streamingMessageId prev; error := error prev |}.

Definition withError (e : option string) (prev : ChatState) : ChatState :=
  {| currentConversationId := currentConversationId prev; isStreaming := isStreaming prev;
     streamingMessageId := streamingMessageId prev; error := e |}.

Definition withStreaming (b : bool) (mid : option string) (prev : ChatState) : ChatState :=
  {| currentConversationId := currentConversationId prev; isStreaming := b;
     streamingMessageId := mid; error := error prev |}.

Definition withFailure (e : string) (prev : ChatState) : ChatState :=
  {| currentConversationId := currentConversationId prev; isStreaming := false;
     streamingMessageId := None; error := Some e |}.

(** Truthiness of a [string | null | undefined]: the empty string is falsy. *)
Definition truthy (o : option string) : bool :=
  match o with
  | Some s => negb (String.eqb s "")
  | None => false
  end.

(** [a || b] *)
Definition orElse (a b : option string) : option string :=
  if truthy a then a else b.

(** What one render of the provider hands to the callbacks it creates: the
    signed-in user, the state cell, [conversations] and [currentMessages].
    A callback keeps these values for as long as it runs. *)
Record Render : Type := {
  user : option string;
  renderedState : ChatState;
  conversations : list Conversation.t;
  currentMessages : list Message.t
}.

(** The render of a store: [useConversations] and
    [useConversationMessages(state.currentConversationId)] with their [= []]
    defaults; the messages hook reads the key ['disabled'], which never has
    data, when no conversation is selected. *)
Definition render (u : option string) (s : Store) : Render :=
  {| user := u;
     renderedState := state s;
     conversations := conversationsOf (queryClient s);
     currentMessages :=
       if truthy (currentConversationId (state s)) then
         match currentConversationId (state s) with
         | Some cid => messagesOf (queryClient s) cid
         | None => []
         end
       else [] |}.

(** *** Cache mutations *)

(** [useCreateConversation], [onSuccess] *)
Definition createConversationSuccess (newConversation : Conversation.t)
  (qc : QueryClient) : QueryClient :=
  setMessages (Conversation.id newConversation) (fun _ => [])
    (setConversations (fun old => newConversation :: old) qc).

(** [useDeleteConversation], [onSuccess] *)
Definition deleteConversationSuccess (conversationId : string)
  (qc : QueryClient) : QueryClient :=
  removeMessages conversationId
    (setConversations
       (List.filter (fun conv => negb (String.eqb (Conversation.id conv) conversationId))) qc).

(** [useClearConversation], [onSuccess] *)
Definition clearConversationSuccess (now : string) (conversationId : string)
  (qc : QueryClient) : QueryClient :=
  setConversations
    (List.map (fun conv =>
       if String.eqb (Conversation.id conv) conversationId
       then Conversation.cleared conv now else conv))
    (setMessages conversationId (fun _ => []) qc).

(** [addMessageToCache]; [now] is [new Date().toISOString()]. *)
Definition addMessageToCache (now : string) (conversationId : string) (message : Message.t)
  (qc : QueryClient) : QueryClient :=
  setConversations
    (List.map (fun conv =>
       if String.eqb (Conversation.id conv) conversationId
       then Conversation.withUpdatedAt conv now else conv))
    (setMessages conversationId (fun old => old ++ [message]) qc).

(** Two readings of [toISOString] compared as instants: the format has
    fixed width and the most significant field first, so the earlier
    instant is the smaller text. *)
Definition isoBefore (a b : string) : bool := String.ltb a b.

(** The updater of [updateMessageInCache]. *)
Definition patchContent (messageId content : string) (append : bool)
  (old : list Message.t) : list Message.t :=
  List.map (fun msg =>
    if String.eqb (Message.id msg) messageId
    then Message.withContent msg
           (if append then Message.content msg +:+ content else content)
    else msg) old.

(** [updateMessageInCache]; [append] defaults to [false] in the source. *)
Definition updateMessageInCache (conversationId messageId content : string)
  (append : bool) (qc : QueryClient) : QueryClient :=
  setMessages conversationId (patchContent messageId content append) qc.

(** The updater run by the [onEnd] callback: mark message as no longer
    streaming. *)
Definition finalize (messageId : string) (old : list Message.t) : list Message.t :=
  List.map (fun msg =>
    if String.eqb (Message.id msg) messageId
    then Message.withIsStreaming msg false else msg) old.

(** [message.length > 50 ? message.substring(0, 50) + '...' : message],
    on the code units of the text. *)
Definition autoTitle (message : Utf16.text) : Utf16.text :=
  if (50 <? length message)%nat
  then Utf16.substring0 50 message ++ Utf16.literal "..."
  else message.

(** *** The callbacks [sendMessage] passes to [ChatAPI.sendMessageStream] *)

Section SendMessageCallbacks.

(** The values the callbacks close over: the render that created
    [sendMessage], the text being sent and the conversation it goes to. *)
Variable cl : Render.
Variable message : Utf16.text.
Variable currentConversationId : string.

(** [(userMessage) => { addMessageToCache(currentConversationId, userMessage) }] *)
Definition onUserMessage (now : string) (userMessage : Message.t) (s : Store) : Store :=
  updateCache (addMessageToCache now currentConversationId userMessage) s.

Definition onAssistantMessageStart (now : string) (messageId timestamp : string)
  (s : Store) : Store :=
  let assistantMessage :=
    {| Message.id := messageId; Message.role := RoleAssistant; Message.content := "";
       Message.timestamp := timestamp; Message.isStreaming := Some true |} in
  setState (withStreaming true (Some messageId))
    (updateCache (addMessageToCache now currentConversationId assistantMessage) s).

Definition onContent (content messageId : string) (s : Store) : Store :=
  updateCache (updateMessageInCache currentConversationId messageId content true) s.

(** The title update of [onEnd] reads [conversations] and [currentMessages]
    of the render, not the cache. *)
Definition isFirstExchange : bool :=
  match List.find (fun conv => String.eqb (Conversation.id conv) currentConversationId)
          (conversations cl) with
  | Some _ => (length (currentMessages cl) <=? 1)%nat
  | None => false
  end.

Definition onEnd (messageId : string) (s : Store) : Store :=
  let s1 := setState (withStreaming false None) s in
  let s2 := updateCache (setMessages currentConversationId (finalize messageId)) s1 in
  if isFirstExchange then
    let title := autoTitle message in
    updateCache
      (setConversations
         (List.map (fun conv =>
            if String.eqb (Conversation.id conv) currentConversationId
            then Conversation.withTitle conv title else conv))) s2
  else s2.

Definition onError (error : string) (s : Store) : Store :=
  setState (withFailure "Failed to send message. Please try again.") s.

(** The events of the stream with the argument types the callbacks
    declare. *)
Inductive StreamEvent : Type :=
| UserMessageEvent (userMessage : Message.t)
| AssistantMessageStartEvent (messageId timestamp : string)
| ContentEvent (content messageId : string)
| EndEvent (messageId : string)
| ErrorEvent (error : string).

(** The callback an event reaches; [now] is the clock reading when it
    runs. *)
Definition applyEvent (s : Store) (timed : string * StreamEvent) : Store :=
  let '(now, ev) := timed in
  match ev with
  | UserMessageEvent m => onUserMessage now m s
  | AssistantMessageStartEvent mid ts => onAssistantMessageStart now mid ts s
  | ContentEvent c mid => onContent c mid s
  | EndEvent mid => onEnd mid s
  | ErrorEvent e => onError e s
  end.

Definition applyEvents (events : list (string * StreamEvent)) (s : Store) : Store :=
  foldl applyEvent s events.

End SendMessageCallbacks.

(** *** The actions of the context *)

(** What the backend does during one [sendMessage]: the conversation
    [ChatAPI.createConversation] resolves to ([None] when it rejects), the
    events the stream delivers with the clock reading at each, and how
    [ChatAPI.sendMessageStream] settles. *)
Record Exchange : Type := {
  created : option Conversation.t;
  events : list (string * StreamEvent);
  settled : ChatAPI.Outcome
}.

(** [createNewConversation] after its sign-in check, on a resolved
    mutation: the [onSuccess] of the mutation, then the selection. *)
Definition createNewConversation (result : Conversation.t) (s : Store) : Store :=
  setState (withCurrentConversationId (Some (Conversation.id result)))
    (updateCache (createConversationSuccess result) s).

(** The [catch] of [sendMessage]. *)
Definition sendMessageFailed (s : Store) : Store :=
  setState (withFailure "Failed to send message. Please try again.") s.

(** [sendMessage]: the sign-in check, the choice of the target conversation
    ([conversationId || state.currentConversationId], a new conversation
    when that is falsy), the stream, and the [catch] for a rejected
    creation or stream. *)
Definition sendMessage (cl : Render) (x : Exchange) (message : Utf16.text)
  (conversationId : option string) (s : Store) : Store :=
  match user cl with
  | None => setState (withError (Some "You must be logged in to send messages")) s
  | Some _ =>
      let s1 := setState (withError None) s in
      let wanted := orElse conversationId (currentConversationId (renderedState cl)) in
      let started : option (string * Store) :=
        if truthy wanted then option_map (fun cid => (cid, s1)) wanted
        else option_map (fun conv => (Conversation.id conv, createNewConversation conv s1))
               (created x) in
      match started with
      | None => sendMessageFailed s1
      | Some (cid, s2) =>
          let s3 := applyEvents cl message cid (events x) s2 in
          match settled x with
          | ChatAPI.Resolved => s3
          | ChatAPI.Rejected _ => sendMessageFailed s3
          end
      end
  end.

(** [deleteConversation]; [api] is how [ChatAPI.deleteConversation]
    settles.  The reselection reads [state] and [conversations] of the
    render. *)
Definition deleteConversation (cl : Render) (api : ChatAPI.Outcome)
  (conversationId : string) (s : Store) : Store :=
  match api with
  | ChatAPI.Resolved =>
      let s1 := updateCache (deleteConversationSuccess conversationId) s in
      match currentConversationId (renderedState cl) with
      | Some selected =>
          if String.eqb selected conversationId then
            let remainingConversations :=
              List.filter
                (fun conv => negb (String.eqb (Conversation.id conv) conversationId))
                (conversations cl) in
            setState
              (withCurrentConversationId
                 (match remainingConversations with
                  | first :: _ => Some (Conversation.id first)
                  | [] => None
                  end)) s1
          else s1
      | None => s1
      end
  | ChatAPI.Rejected _ => setState (withError (Some "Failed to delete conversation")) s
  end.

(** [clearConversation] *)
Definition clearConversation (now : string) (api : ChatAPI.Outcome)
  (conversationId : string) (s : Store) : Store :=
  match api with
  | ChatAPI.Resolved => updateCache (clearConversationSuccess now conversationId) s
  | ChatAPI.Rejected _ => setState (withError (Some "Failed to clear conversation")) s
  end.


(** *** The exchange of the specification *)

(** The user's message, the start of the reply [a1], two fragments, the
    end, with the clock reading at each event. *)
Definition twoFragmentExchange (um : Message.t) (a1 ts f1 f2 : string)
  (t1 t2 t3 t4 t5 : string) : list (string * StreamEvent) :=
  [(t1, UserMessageEvent um); (t2, AssistantMessageStartEvent a1 ts);
   (t3, ContentEvent f1 a1); (t4, ContentEvent f2 a1); (t5, EndEvent a1)].

(** The reply once it is complete. *)
Definition finishedReply (a1 ts content : string) : Message.t :=
  {| Message.id := a1; Message.role := RoleAssistant; Message.content := content;
     Message.timestamp := ts; Message.isStreaming := Some false |}.

(** *** The rest of the provider *)

(** [queryClient.clear()]: no key has data any more. *)
Definition clear (qc : QueryClient) : QueryClient :=
  {| conversationsData := None; messagesData := ∅ |}.

(** The effect that runs after a render whose [conversations],
    [state.currentConversationId] or [user] changed: the purge on sign-out,
    and the selection of the first conversation when none is selected. *)
Definition autoSelect (cl : Render) (s : Store) : Store :=
  match user cl with
  | None => setState (withCurrentConversationId None) (updateCache clear s)
  | Some _ =>
      match conversations cl with
      | first :: _ =>
          if truthy (currentConversationId (renderedState cl)) then s
          else setState (withCurrentConversationId (Some (Conversation.id first))) s
      | [] => s
      end
  end.

(** [currentConversation] of the context value:
    [state.currentConversationId ? conversations.find(...) || null : null] *)
Definition currentConversation (cl : Render) : option Conversation.t :=
  if truthy (currentConversationId (renderedState cl)) then
    match currentConversationId (renderedState cl) with
    | Some selected =>
        List.find (fun conv => String.eqb (Conversation.id conv) selected) (conversations cl)
    | None => None
    end
  else None.


(** The ids of the messages an event appends to the message list. *)
Definition appendedIds (ev : StreamEvent) : list string :=
  match ev with
  | UserMessageEvent userMessage => [Message.id userMessage]
  | AssistantMessageStartEvent messageId _ => [messageId]
  | _ => []
  end.

Definition isErrorEvent (ev : StreamEvent) : bool :=
  match ev with
  | ErrorEvent _ => true
  | _ => false
  end.

(** The start of a reply followed by its content fragments, each with the
    clock reading at its arrival. *)
Definition fragmentEvents (start : string) (messageId timestamp : string)
  (fragments : list (string * string)) : list (string * StreamEvent) :=
  (start, AssistantMessageStartEvent messageId timestamp)
  :: List.map (fun tf => (fst tf, ContentEvent (snd tf) messageId)) fragments.

(** The events that end the streaming state: end and error. *)
Definition isEnding (ev : StreamEvent) : bool :=
  match ev with
  | EndEvent _ | ErrorEvent _ => true
  | _ => false
  end.


End ChatContext.

(** ** The components: [ChatInput], [ChatInterface], [MessageBubble] *)

Module Components.

Import ChatContext.

(** The class [\s] on the 8-bit text of a provider message, for the
    pattern of [cleanFirebaseError]: tab, line feed, vertical tab, form
    feed, carriage return, space and no-break space. *)
Definition isSpace (c : ascii) : bool :=
  let n := nat_of_ascii c in
  ((9 <=? n)%nat && (n <=? 13)%nat) || (n =? 32)%nat || (n =? 160)%nat.

(** The text after a leading run of [\s]. *)
Fixpoint trimStart (s : string) : string :=
  match s with
  | EmptyString => EmptyString
  | String c rest => if isSpace c then trimStart rest else s
  end.

(** [handleSendClick] of [ChatInput], which is also what [handleKeyPress]
    does on Enter without Shift: the argument [onSend] is called with, if it
    is called.  [value] is the text of the input field. *)
Definition handleSendClick (value : Utf16.text) (disabled : bool) : option Utf16.text :=
  if Utf16.nonEmpty (Utf16.trim value) && negb disabled
  then Some (Utf16.trim value) else None.

(** [handleSendMessage] of [ChatInterface]: the text [sendMessage] is called
    with, if it is called. *)
Definition handleSendMessage (message : Utf16.text) : option Utf16.text :=
  if Utf16.nonEmpty (Utf16.trim message) then Some message else None.

(** A click on the send button of the input that [ChatInterface] renders:
    [onSend] is [handleSendMessage] and [disabled] is [isStreaming]. *)
Definition sendFromInput (cl : Render) (value : Utf16.text) : option Utf16.text :=
  match handleSendClick value (isStreaming (renderedState cl)) with
  | Some text => handleSendMessage text
  | None => None
  end.

(** The [isStreaming] property [ChatInterface] gives to the bubble of a
    message, and whether [MessageBubble] then draws the cursor after its
    content. *)
Definition bubbleIsStreaming (cl : Render) (msg : Message.t) : bool :=
  isStreaming (renderedState cl)
  && bool_decide (streamingMessageId (renderedState cl) = Some (Message.id msg)).

Definition drawsCursor (cl : Render) (msg : Message.t) : bool :=
  bubbleIsStreaming cl msg
  && match Message.role msg with
     | RoleAssistant => true
     | RoleUser => false
     end.

End Components.

(** ** [Sidebar]: the date label of a conversation *)

Module Sidebar.

Definition msPerDay : Z := 1000 * 60 * 60 * 24.

(** [formatDate].  [date] is [new Date(dateString).getTime()] and [now] is
    [new Date().getTime()], in milliseconds; the quotient is the floor of the
    division, which is what [Math.floor(diff / msPerDay)] computes for
    instants less than 10^8 days apart.  The locale's rendering of a date is
    a parameter. *)
Definition formatDate (toLocaleDateString : Z -> string) (date now : Z) : string :=
  let diff := (now - date)%Z in
  let days := (diff / msPerDay)%Z in
  if (days =? 0)%Z then "Today"
  else if (days =? 1)%Z then "Yesterday"
  else if (days <? 7)%Z then pretty days +:+ " days ago"
  else toLocaleDateString date.

End Sidebar.

(** ** [config/queryClient.ts]: the retry policy *)

Module QueryClientConfig.

(** [s.includes(needle)] *)
Fixpoint includes (s needle : string) : bool :=
  String.prefix needle s ||
  match s with
  | EmptyString => false
  | String _ rest => includes rest needle
  end.

(** [error?.code?.includes('auth/')] for an error whose [code], when it
    has one, is a string. *)
Definition isAuthError (code : option string) : bool :=
  match code with
  | Some c => includes c "auth/"
  | None => false
  end.

(** [defaultOptions.queries.retry] and [defaultOptions.mutations.retry] *)
Definition queriesRetry (failureCount : nat) (code : option string) : bool :=
  if isAuthError code then false else (failureCount <? 3)%nat.

Definition mutationsRetry (failureCount : nat) (code : option string) : bool :=
  if isAuthError code then false else (failureCount <? 2)%nat.

End QueryClientConfig.

(** ** [utils/errorUtils.ts]: cleaning the errors of the identity provider *)

Module ErrorUtils.

(** What was thrown: a falsy value, or a value with its [message] property
    (when it has one, a string) and the text [toString()] gives. *)
Inductive Thrown : Type :=
| Falsy
| Truthy (message : option string) (toString : string).

(** [error.message || error.toString()] *)
Definition messageOf (message : option string) (toString : string) : string :=
  match message with
  | Some m => if String.eqb m "" then toString else m
  | None => toString
  end.

(** The own properties of [errorMessages]. *)
Definition errorMessages : list (string * string) :=
  [("invalid-credential", "Invalid email or password");
   ("user-not-found", "No account found with this email");
   ("wrong-password", "Incorrect password");
   ("email-already-in-use", "An account with this email already exists");
   ("weak-password", "Password should be at least 6 characters");
   ("invalid-email", "Please enter a valid email address");
   ("user-disabled", "This account has been disabled");
   ("too-many-requests", "Too many failed attempts. Please try again later");
   ("network-request-failed", "Network error. Please check your connection");
   ("internal-error", "Internal error. Please try again later");
   ("invalid-verification-code", "Invalid verification code");
   ("invalid-verification-id", "Invalid verification ID");
   ("missing-verification-code", "Please enter the verification code");
   ("missing-verification-id", "Missing verification ID");
   ("quota-exceeded", "Quota exceeded. Please try again later");
   ("app-deleted", "App has been deleted");
   ("app-not-authorized", "App not authorized");
   ("argument-error", "Invalid argument provided");
   ("invalid-api-key", "Invalid API key");
   ("invalid-user-token", "User token is invalid");
   ("operation-not-allowed", "This operation is not allowed");
   ("requires-recent-login", "Please log in again to continue");
   ("unauthorized-domain", "Domain is not authorized")].

(** The names every object literal inherits from [Object.prototype]:
    [errorMessages[name]] is then a function or an object, not a text. *)
Definition inheritedNames : list string :=
  ["constructor"; "hasOwnProperty"; "isPrototypeOf"; "propertyIsEnumerable";
   "toLocaleString"; "toString"; "valueOf"; "__proto__"; "__defineGetter__";
   "__defineSetter__"; "__lookupGetter__"; "__lookupSetter__"].

Fixpoint lookupMessage (code : string) (table : list (string * string)) : option string :=
  match table with
  | [] => None
  | (k, v) :: rest => if String.eqb k code then Some v else lookupMessage code rest
  end.

(** [s.replace(/-/g, ' ')] *)
Fixpoint replaceHyphens (s : string) : string :=
  match s with
  | EmptyString => EmptyString
  | String c rest => String (if Ascii.eqb c "-" then " "%char else c) (replaceHyphens rest)
  end.

(** [formatAuthErrorCode]: [errorMessages[errorCode] || errorCode.replace(...)].
    [None] stands for the value, not a text, that an inherited name
    yields. *)
Definition formatAuthErrorCode (errorCode : string) : option string :=
  match lookupMessage errorCode errorMessages with
  | Some text => Some text
  | None =>
      if bool_decide (errorCode ∈ inheritedNames) then None
      else Some (replaceHyphens errorCode)
  end.

(** The characters up to the first closing parenthesis, when there is one:
    what [([^)]+)\)] captures at the head of [s], the empty capture
    included. *)
Fixpoint upToParen (s : string) : option string :=
  match s with
  | EmptyString => None
  | String c rest =>
      if Ascii.eqb c ")" then Some EmptyString
      else option_map (String c) (upToParen rest)
  end.

(** A match of [marker([^)]+)\)] that starts at the head of [s]: its
    capture. *)
Definition codeAt (marker s : string) : option string :=
  if String.prefix marker s then
    match upToParen (JS.slice (String.length marker) s) with
    | Some code => if String.eqb code "" then None else Some code
    | None => None
    end
  else None.

(** [s.match(/marker([^)]+)\)/)]: the capture of the leftmost match. *)
Fixpoint findCode (marker s : string) : option string :=
  match codeAt marker s with
  | Some code => Some code
  | None =>
      match s with
      | EmptyString => None
      | String _ rest => findCode marker rest
      end
  end.

(** [message.replace(/^FirebaseError:\s*/, '')] *)
Definition stripPrefix (message : string) : string :=
  if String.prefix "FirebaseError:" message
  then Components.trimStart (JS.slice 14 message)
  else message.

(** [cleanFirebaseError]; [None] as for [formatAuthErrorCode]. *)
Definition cleanFirebaseError (error : Thrown) : option string :=
  match error with
  | Falsy => Some "An unexpected error occurred"
  | Truthy message toString =>
      let message := messageOf message toString in
      match findCode "Firebase: Error (auth/" message with
      | Some errorCode => formatAuthErrorCode errorCode
      | None =>
          let message := stripPrefix message in
          match findCode "(auth/" message with
          | Some errorCode => formatAuthErrorCode errorCode
          | None => Some message
          end
      end
  end.

(** An [Error] object made with [new Error(text)]: its message is the
    text and its [toString()] is [Error: text], or [Error] for the empty
    text. *)
Definition newError (text : string) : Thrown :=
  Truthy (Some text) (if String.eqb text "" then "Error" else "Error: " +:+ text).

(** A text with no closing parenthesis in it. *)
Definition noParen (s : string) : Prop := ~ In ")"%char (list_ascii_of_string s).

(** What holds of every row of the table, by evaluation: the code is not
    empty and has no closing parenthesis; it formats to its text; and its
    text, thrown again as an error, is cleaned to itself. *)
Definition rowChecks (row : string * string) : bool :=
  negb (String.eqb (fst row) "")
  && negb (List.existsb (Ascii.eqb ")") (list_ascii_of_string (fst row)))
  && bool_decide (formatAuthErrorCode (fst row) = Some (snd row))
  && bool_decide (cleanFirebaseError (newError (snd row)) = Some (snd row)).

End ErrorUtils.

(** ** Sample data

    A backend answering with a fixed response, three conversations of one
    user, and a store in which the first of them is selected and holds one
    message. *)

Module Samples.

Import ChatAPI ChatContext.

Definition backend (response : Response) : Env :=
  {| currentUser := Some "token";
     API_BASE_URL := "http://localhost:8000";
     fetch := fun _ _ _ => response |}.

Definition contentFrame : string := dq "{'type':'content','content':'Hel','messageId':'a1'}".
Definition endFrame : string := dq "{'type':'end','messageId':'a1'}".
Definition pingFrame : string := dq "{'type':'ping','messageId':'a1'}".

Definition conversation (cid title : string) : Conversation.t :=
  {| Conversation.id := cid; Conversation.title := Utf16.literal title;
     Conversation.messages := [];
     Conversation.createdAt := "2024-01-01T00:00:00.000Z";
     Conversation.updatedAt := "2024-01-01T00:00:00.000Z";
     Conversation.userId := "uid" |}.

Definition question : Message.t :=
  {| Message.id := "u0"; Message.role := RoleUser; Message.content := "Hi";
     Message.timestamp := "2024-01-01T00:00:01.000Z"; Message.isStreaming := None |}.

Definition idle (selected : option string) : ChatState :=
  {| currentConversationId := selected; isStreaming := false;
     streamingMessageId := None; error := None |}.

Definition threeConversations : list Conversation.t :=
  [conversation "c1" "New Chat"; conversation "c2" "Second"; conversation "c3" "Third"].

Definition store : Store :=
  {| queryClient :=
       {| conversationsData := Some threeConversations;
          messagesData := {["c1" := [question]]} |};
     state := idle (Some "c1") |}.

Definition lastConversation : Store :=
  {| queryClient :=
       {| conversationsData := Some [conversation "c1" "New Chat"];
          messagesData := {["c1" := [question]]} |};
     state := idle (Some "c1") |}.

Definition reply : Message.t :=
  {| Message.id := "a0"; Message.role := RoleAssistant; Message.content := "Hello";
     Message.timestamp := "2024-01-01T00:00:02.000Z"; Message.isStreaming := Some false |}.




(** The stream of one exchange: the message [u1], the reply [a1] in two
    fragments, the end. *)
Definition helloExchange : Exchange :=
  {| created := None;
     events :=
       twoFragmentExchange
         {| Message.id := "u1"; Message.role := RoleUser; Message.content := "Hi";
            Message.timestamp := "2024-01-02T00:00:00.000Z"; Message.isStreaming := None |}
         "a1" "2024-01-02T00:00:01.000Z" "Hel" "lo"
         "2024-01-02T00:00:00.100Z" "2024-01-02T00:00:01.100Z" "2024-01-02T00:00:01.200Z"
         "2024-01-02T00:00:01.300Z" "2024-01-02T00:00:01.400Z";
     settled := Resolved |}.

(** A text of 59 code units. *)
Definition longQuestion : Utf16.text :=
  Utf16.literal "Explain quantum computing in simple terms, with an example.".

End Samples.

(** * Properties *)

(** ** The reference JSON reader on the wire format *)

Example parse_end_frame :
  Json.parse (dq "{'type':'end','messageId':'a1'}")
  = Some (JObject [("type", JString "end"); ("messageId", JString "a1")]).
Proof. vm_compute. reflexivity. Qed.

Example parse_nested :
  Json.parse (dq " {'a' : [1, -2.5e3, true, null, {}], 'b': {'c': 'x\ny'}} ")
  = Some (JObject [("a", JArray [JNumber "1"; JNumber "-2.5e3"; JBool true; JNull; JObject []]);
                   ("b", JObject [("c", JString ("x" +:+ String JS.newline "y"))])]).
Proof. vm_compute. reflexivity. Qed.

Example parse_malformed : Json.parse "{not json}" = None.
Proof. vm_compute. reflexivity. Qed.

Example parse_trailing : Json.parse "[1,]" = None /\ Json.parse "01" = None /\ Json.parse "1 2" = None.
Proof. vm_compute. auto. Qed.

(** ** Strings *)

Section StringFacts.

Lemma split_nonempty (sep : ascii) (s : string) : JS.split sep s <> [].
Proof.
  induction s as [|c s IH]; simpl; [discriminate|].
  destruct (Ascii.eqb c sep); [discriminate|].
  destruct (JS.split sep s); [contradiction | discriminate].
Qed.

(** Splitting a text at one of its separators splits its list of pieces. *)
Lemma split_app_sep (sep : ascii) (a b : string) :
  JS.split sep (a +:+ String sep b) = JS.split sep a ++ JS.split sep b.
Proof.
  induction a as [|c a IH]; simpl.
  - rewrite Ascii.eqb_refl. reflexivity.
  - destruct (Ascii.eqb c sep); [now rewrite IH|].
    rewrite IH. pose proof (split_nonempty sep a) as Hne.
    destruct (JS.split sep a); [contradiction | reflexivity].
Qed.

Lemma append_cons (x : ascii) (a b : string) : String x a +:+ b = String x (a +:+ b).
Proof. reflexivity. Qed.

Lemma append_assoc (a b c : string) : (a +:+ b) +:+ c = a +:+ (b +:+ c).
Proof.
  induction a as [|x a IH]; [reflexivity|].
  rewrite !append_cons. f_equal. exact IH.
Qed.

Lemma append_empty_r (a : string) : a +:+ EmptyString = a.
Proof.
  induction a as [|x a IH]; [reflexivity|].
  rewrite append_cons. f_equal. exact IH.
Qed.

Lemma prefix_append (p s : string) : String.prefix p (p +:+ s) = true.
Proof.
  induction p as [|x p IH]; [now destruct s|].
  rewrite append_cons. simpl. destruct (ascii_dec x x); [exact IH | contradiction].
Qed.

End StringFacts.

(** ** The frame loop of [sendMessageStream] *)

Section FrameLoopFacts.

Import ChatAPI.

Lemma payloads_empty : payloads EmptyString = [].
Proof. reflexivity. Qed.

(** A newline inside a chunk separates the payloads before it from the
    payloads after it. *)
Lemma payloads_app_newline (a b : string) :
  payloads (a +:+ String JS.newline b) = payloads a ++ payloads b.
Proof.
  unfold payloads. rewrite split_app_sep, List.filter_app, List.map_app. reflexivity.
Qed.

Lemma lineAligned_inv (chunk : string) :
  lineAligned chunk = true ->
  chunk = EmptyString \/ exists a, chunk = a +:+ String JS.newline EmptyString.
Proof.
  induction chunk as [|c rest IH]; [now left|].
  intros H. right. destruct rest as [|d rest'].
  - simpl in H. apply Ascii.eqb_eq in H. subst c. now exists EmptyString.
  - destruct (IH H) as [Hnil | [a Ha]]; [discriminate|].
    exists (String c a). rewrite append_cons, <- Ha. reflexivity.
Qed.

(** A chunk that ends on a line boundary contributes its payloads
    independently of the text that follows it. *)
Lemma payloads_app_aligned (chunk rest : string) :
  lineAligned chunk = true ->
  payloads (chunk +:+ rest) = payloads chunk ++ payloads rest.
Proof.
  intros H. destruct (lineAligned_inv chunk H) as [-> | [a ->]]; [reflexivity|].
  rewrite append_assoc, append_cons. change (EmptyString +:+ rest) with rest.
  rewrite !payloads_app_newline, payloads_empty, List.app_nil_r. reflexivity.
Qed.

Lemma decodeFrames_aligned (chunks : list string) (final : string) :
  List.forallb lineAligned chunks = true ->
  decodeFrames (chunks ++ [final]) = payloads (JS.concat (chunks ++ [final])).
Proof.
  induction chunks as [|c chunks IH]; intros H.
  - simpl. rewrite append_empty_r, List.app_nil_r. reflexivity.
  - simpl in H. apply andb_prop in H as [Hc Hrest].
    change (decodeFrames ((c :: chunks) ++ [final]))
      with (payloads c ++ decodeFrames (chunks ++ [final])).
    change (JS.concat ((c :: chunks) ++ [final]))
      with (c +:+ JS.concat (chunks ++ [final])).
    rewrite payloads_app_aligned, IH by assumption. reflexivity.
Qed.

Section Loop.

Variable JSON_parse : string -> option JSON.
Context {St : Type}.
Variable cb : Callbacks St.

(** The effect of a chunk is the effect of its payloads, in order. *)
Lemma handleChunk_payloads (chunk : string) (st : St) :
  handleChunk JSON_parse cb chunk st
  = foldl (fun acc p => handlePayload JSON_parse cb p acc) st (payloads chunk).
Proof.
  unfold handleChunk, payloads. generalize (JS.split JS.newline chunk) as lines.
  intros lines. revert st.
  induction lines as [|l lines IH]; intros st; [reflexivity|].
  simpl. rewrite IH. unfold handleLine.
  destruct (JS.startsWith l "data: "); reflexivity.
Qed.

(** The effect of a stream is the effect of its decoded frames, in order. *)
Lemma readLoop_decodeFrames (chunks : list string) (st : St) :
  readLoop JSON_parse cb chunks st
  = foldl (fun acc p => handlePayload JSON_parse cb p acc) st (decodeFrames chunks).
Proof.
  revert st. induction chunks as [|c chunks IH]; intros st; [reflexivity|].
  change (decodeFrames (c :: chunks)) with (payloads c ++ decodeFrames chunks).
  rewrite foldl_app, <- handleChunk_payloads. apply IH.
Qed.

End Loop.

End FrameLoopFacts.

Section FrameFacts.

Import ChatAPI.

Lemma split_no_sep (sep : ascii) (s : string) :
  (forall a b, s <> a +:+ String sep b) -> JS.split sep s = [s].
Proof.
  induction s as [|c s IH]; intros H; [reflexivity|].
  simpl. destruct (Ascii.eqb c sep) eqn:E.
  - apply Ascii.eqb_eq in E. subst c. exfalso. now apply (H EmptyString s).
  - rewrite IH; [reflexivity|].
    intros a b ->. now apply (H (String c a) b).
Qed.

Lemma noNewline_no_sep (s : string) :
  noNewline s = true -> forall a b, s <> a +:+ String JS.newline b.
Proof.
  induction s as [|c s IH]; intros H a b E.
  - destruct a; discriminate.
  - simpl in H. apply andb_prop in H as [Hc Hs].
    destruct a as [|x a].
    + injection E as -> _. rewrite Ascii.eqb_refl in Hc. discriminate.
    + rewrite append_cons in E. injection E as _ E. now apply (IH Hs a b).
Qed.

(** A frame line at the head of a chunk contributes exactly its payload. *)
Lemma payloads_frameLine (payload rest : string) :
  noNewline payload = true ->
  payloads (frameLine payload +:+ rest) = payload :: payloads rest.
Proof.
  intros H. unfold frameLine.
  replace (("data: " +:+ payload +:+ String JS.newline EmptyString) +:+ rest)
    with (("data: " +:+ payload) +:+ String JS.newline rest)
    by (now rewrite !append_assoc).
  rewrite payloads_app_newline.
  assert (payloads ("data: " +:+ payload) = [payload]) as ->; [|reflexivity].
  unfold payloads. rewrite split_no_sep by (apply noNewline_no_sep; exact H).
  simpl. unfold JS.startsWith. rewrite prefix_append. reflexivity.
Qed.

End FrameFacts.

(** ** Claims about the streaming client *)

Section StreamingClaims.

Import ChatAPI.

(** C1, as stated, fails: the loop splits every chunk on its own and keeps
    no text between chunks.  The well-formed stream of one [end] frame, cut
    after its 17th character, is read as one truncated payload (which does
    not parse) and one line without the prefix; the unsplit stream yields the
    frame.  So the payload sequences differ, and so do the callbacks made. *)
Lemma C1_split_inside_line_counterexample :
  let stream := frameLine (dq "{'type':'end','messageId':'a1'}") in
  let chunks := [dq "data: {'type':'en";
                 dq "d','messageId':'a1'}" +:+ String JS.newline EmptyString] in
  wellFormedStream stream = true
  /\ JS.concat chunks = stream
  /\ decodeFrames [stream] = [dq "{'type':'end','messageId':'a1'}"]
  /\ decodeFrames chunks = [dq "{'type':'en"]
  /\ decodeFrames chunks <> decodeFrames [stream]
  /\ readLoop Json.parse recorder [stream] [] = [EndCall (JSValue_of (JString "a1"))]
  /\ readLoop Json.parse recorder chunks [] = [].
Proof.
  vm_compute. repeat split; try reflexivity. discriminate.
Qed.

(** C1, amended: for every stream and every way of cutting it into chunks
    on line boundaries (each chunk but the last is empty or ends with a
    newline), the loop decodes the same ordered sequence of payload strings
    as for the unsplit stream, and makes the same callbacks. *)
Theorem C1_chunking_on_line_boundaries (chunks : list string) (final : string) :
  List.forallb lineAligned chunks = true ->
  decodeFrames (chunks ++ [final]) = decodeFrames [JS.concat (chunks ++ [final])]
  /\ forall (JSON_parse : string -> option JSON) (St : Type) (cb : Callbacks St) (st : St),
       readLoop JSON_parse cb (chunks ++ [final]) st
       = readLoop JSON_parse cb [JS.concat (chunks ++ [final])] st.
Proof.
  intros H.
  assert (decodeFrames (chunks ++ [final]) = decodeFrames [JS.concat (chunks ++ [final])]) as E.
  { rewrite decodeFrames_aligned by exact H.
    unfold decodeFrames. simpl. now rewrite List.app_nil_r. }
  split; [exact E|].
  intros JSON_parse St cb st. rewrite !readLoop_decodeFrames, E. reflexivity.
Qed.

(** Two content frames and an end frame in four chunks, one of them empty,
    one starting with a blank line, the last without its newline. *)
Lemma C1_chunking_on_line_boundaries_witness :
  let chunks := [frameLine (dq "{'type':'content','content':'Hel','messageId':'a1'}");
                 EmptyString;
                 String JS.newline (frameLine (dq "{'type':'content','content':'lo','messageId':'a1'}"))] in
  let final := dq "data: {'type':'end','messageId':'a1'}" in
  decodeFrames (chunks ++ [final]) = decodeFrames [JS.concat (chunks ++ [final])]
  /\ forall (JSON_parse : string -> option JSON) (St : Type) (cb : Callbacks St) (st : St),
       readLoop JSON_parse cb (chunks ++ [final]) st
       = readLoop JSON_parse cb [JS.concat (chunks ++ [final])] st.
Proof.
  intros chunks final. apply (C1_chunking_on_line_boundaries chunks final). reflexivity.
Defined.

(** C4: when the response is not ok, or has no body to read, the promise
    rejects with the error message of the failed step and the caller's state
    is returned untouched whatever the five callbacks would do to it: none of
    them runs.  In particular a recording set of callbacks records
    nothing. *)
Theorem C4_transport_failure_invokes_no_callback
  (JSON_parse : string -> option JSON) (env : Env) (token conversationId message : string) :
  let response := fetch env (streamUrl env conversationId) token message in
  currentUser env = Some token ->
  ok response = false \/ body response = None ->
  let error :=
    if ok response then "Failed to get response reader"
    else "Failed to send streaming message: " +:+ statusText response in
  (forall (St : Type) (cb : Callbacks St) (st : St),
     sendMessageStream JSON_parse cb env conversationId message st = (Rejected error, st))
  /\ sendMessageStream JSON_parse recorder env conversationId message [] = (Rejected error, []).
Proof.
  intros response Huser Hfail error.
  assert (forall (St : Type) (cb : Callbacks St) (st : St),
     sendMessageStream JSON_parse cb env conversationId message st = (Rejected error, st)) as G.
  { intros St cb st. unfold sendMessageStream. rewrite Huser.
    fold response. subst error. destruct (ok response) eqn:Hok; simpl.
    - destruct Hfail as [Hfail | Hfail]; [discriminate|]. now rewrite Hfail.
    - reflexivity. }
  split; [exact G | apply G].
Qed.

(** A backend that answers 500 with a frame in the body: the frame is never
    read. *)
Lemma C4_transport_failure_witness :
  let env := {| currentUser := Some "token"; API_BASE_URL := "http://localhost:8000";
                fetch := fun _ _ _ =>
                  {| ok := false; statusText := "Internal Server Error";
                     body := Some [frameLine (dq "{'type':'end','messageId':'a1'}")] |} |} in
  (forall (St : Type) (cb : Callbacks St) (st : St),
     sendMessageStream Json.parse cb env "c1" "hello" st
     = (Rejected "Failed to send streaming message: Internal Server Error", st))
  /\ sendMessageStream Json.parse recorder env "c1" "hello" []
     = (Rejected "Failed to send streaming message: Internal Server Error", []).
Proof.
  intros env.
  apply (C4_transport_failure_invokes_no_callback Json.parse env "token" "c1" "hello");
    [reflexivity | left; reflexivity].
Defined.

(** A payload that [JSON.parse] rejects changes nothing: the [catch] has no
    effect on the caller's state and the loop goes on. *)
Lemma handlePayload_malformed (JSON_parse : string -> option JSON) (St : Type)
  (cb : Callbacks St) (payload : string) (st : St) :
  JSON_parse payload = None -> handlePayload JSON_parse cb payload st = st.
Proof. intros H. unfold handlePayload. now rewrite H. Qed.

(** Three frame lines delivered in chunks cut on line boundaries are
    decoded as their three payloads. *)
Lemma decodeFrames_three_lines (chunks : list string) (final first middle last : string) :
  List.forallb lineAligned chunks = true ->
  JS.concat (chunks ++ [final]) = frameLine first +:+ frameLine middle +:+ frameLine last ->
  noNewline first = true -> noNewline middle = true -> noNewline last = true ->
  decodeFrames (chunks ++ [final]) = [first; middle; last].
Proof.
  intros Haligned Hstream Hn1 Hn2 Hn3.
  rewrite decodeFrames_aligned by exact Haligned.
  rewrite Hstream, !payloads_frameLine by assumption.
  replace (frameLine last) with (frameLine last +:+ EmptyString) by apply append_empty_r.
  now rewrite payloads_frameLine, payloads_empty.
Qed.

(** C5: when the frames the loop decodes from the response are a frame
    that parses, a frame whose payload is malformed JSON and another frame
    that parses, the promise resolves (no error is raised) and the caller's
    state is what the [switch] makes of the first parsed value and then of
    the second: the malformed frame is skipped and the frame after it is
    still processed, in order. *)
Theorem C5_malformed_frame_is_skipped
  (JSON_parse : string -> option JSON) (env : Env) (token conversationId message : string)
  (chunks : list string) (first bad second : string) (d1 d2 : JSON) :
  let response := fetch env (streamUrl env conversationId) token message in
  currentUser env = Some token ->
  ok response = true ->
  body response = Some chunks ->
  decodeFrames chunks = [first; bad; second] ->
  JSON_parse first = Some d1 -> JSON_parse bad = None -> JSON_parse second = Some d2 ->
  forall (St : Type) (cb : Callbacks St) (st : St),
    sendMessageStream JSON_parse cb env conversationId message st
    = (Resolved, dispatch cb d2 (dispatch cb d1 st)).
Proof.
  intros response Huser Hok Hbody Hframes Hp1 Hpb Hp2 St cb st.
  unfold sendMessageStream. rewrite Huser. fold response. rewrite Hok, Hbody. simpl.
  f_equal. rewrite readLoop_decodeFrames, Hframes.
  simpl. unfold handlePayload. rewrite Hp1, Hpb, Hp2. reflexivity.
Qed.

(** The stream of the specification: the line [data: {not json}] between a
    content frame and an end frame, the second chunk ending inside no line. *)
Lemma C5_malformed_frame_witness :
  let env := Samples.backend
    {| ok := true; statusText := "OK";
       body := Some [frameLine Samples.contentFrame +:+ frameLine "{not json}";
                     frameLine Samples.endFrame] |} in
  sendMessageStream Json.parse recorder env "c1" "hello" []
  = (Resolved, [ContentCall (JSValue_of (JString "Hel")) (JSValue_of (JString "a1"));
                EndCall (JSValue_of (JString "a1"))]).
Proof.
  exact (C5_malformed_frame_is_skipped Json.parse
           (Samples.backend
              {| ok := true; statusText := "OK";
                 body := Some [frameLine Samples.contentFrame +:+ frameLine "{not json}";
                               frameLine Samples.endFrame] |})
           "token" "c1" "hello"
           [frameLine Samples.contentFrame +:+ frameLine "{not json}";
            frameLine Samples.endFrame]
           Samples.contentFrame "{not json}" Samples.endFrame
           (JObject [("type", JString "content"); ("content", JString "Hel");
                     ("messageId", JString "a1")])
           (JObject [("type", JString "end"); ("messageId", JString "a1")])
           eq_refl eq_refl eq_refl eq_refl eq_refl eq_refl eq_refl
           (list Call) recorder []).
Defined.

(** The [switch] does nothing on a value whose [type] is no [case] label. *)
Lemma dispatch_unknown_type (St : Type) (cb : Callbacks St) (data : JSON) (st : St) :
  (forall type, member data "type" = Some (JSValue_of (JString type)) ->
                ~ In type knownTypes) ->
  dispatch cb data st = st.
Proof.
  intros H. unfold dispatch.
  destruct (member data "type") as [[|[| | |type| |]]|]; try reflexivity.
  specialize (H type eq_refl). unfold knownTypes in H. simpl in H.
  repeat match goal with
  | |- context [String.eqb type ?lit] =>
      destruct (String.eqb_spec type lit) as [->|_]; [exfalso; apply H; tauto|]
  end.
  reflexivity.
Qed.

(** C10: when the frames the loop decodes from the response hold a frame
    whose payload parses but whose [type] is none of the five case labels
    (or is absent, or is not a string, or the value is [null]), the promise
    resolves (no error is raised) and the caller's state is what the loop
    makes of the frames before it followed by the frames after it: no
    callback runs for the frame itself.  Between a frame that parses and
    another that parses, the state is what the [switch] makes of the first
    parsed value and then of the second: the frame after the unknown one is
    still processed, in order.  When the read after the last chunk rejects,
    the state is the same and the promise rejects with the reason of that
    read: the unknown frame adds no error of its own. *)
Theorem C10_unknown_event_type_is_ignored
  (JSON_parse : string -> option JSON) (env : Env) (token conversationId message : string)
  (chunks : list string) (before after : list string) (unknown : string) (data : JSON) :
  let response := fetch env (streamUrl env conversationId) token message in
  currentUser env = Some token ->
  ok response = true ->
  body response = Some chunks ->
  decodeFrames chunks = before ++ unknown :: after ->
  JSON_parse unknown = Some data ->
  (forall type, member data "type" = Some (JSValue_of (JString type)) ->
                ~ In type knownTypes) ->
  forall (St : Type) (cb : Callbacks St) (st : St),
    sendMessageStream JSON_parse cb env conversationId message st
    = (Resolved,
       foldl (fun acc payload => handlePayload JSON_parse cb payload acc) st (before ++ after))
    /\ dispatch cb data st = st
    /\ (forall (first second : string) (d1 d2 : JSON),
          before = [first] -> after = [second] ->
          JSON_parse first = Some d1 -> JSON_parse second = Some d2 ->
          sendMessageStream JSON_parse cb env conversationId message st
          = (Resolved, dispatch cb d2 (dispatch cb d1 st)))
    /\ (forall (net : Network) (broken : option string),
          idToken net = Some (Fulfilled token) ->
          request net
            (baseUrl net +:+ "/api/conversations/" +:+ conversationId +:+ "/messages/stream")
            token message
          = Fulfilled {| received := response; readFailure := broken |} ->
          sendMessageStreamOver JSON_parse cb net conversationId message st
          = (match broken with
             | None => Resolved
             | Some reason => Rejected reason
             end,
             foldl (fun acc payload => handlePayload JSON_parse cb payload acc) st
               (before ++ after))).
Proof.
  intros response Huser Hok Hbody Hframes Hparse Htype St cb st.
  assert (forall st', handlePayload JSON_parse cb unknown st' = st') as G.
  { intros st'. unfold handlePayload. rewrite Hparse. now apply dispatch_unknown_type. }
  assert (sendMessageStream JSON_parse cb env conversationId message st
          = (Resolved,
             foldl (fun acc payload => handlePayload JSON_parse cb payload acc) st
               (before ++ after))) as E.
  { unfold sendMessageStream. rewrite Huser. fold response. rewrite Hok, Hbody. simpl.
    f_equal. rewrite readLoop_decodeFrames, Hframes, !foldl_app. simpl. now rewrite G. }
  split; [exact E|]. split; [now apply dispatch_unknown_type|]. split.
  - intros first second d1 d2 -> -> Hp1 Hp2. rewrite E. simpl.
    unfold handlePayload. now rewrite Hp1, Hp2.
  - intros net broken Htoken Hrequest. unfold sendMessageStreamOver.
    rewrite Htoken, Hrequest. cbn [received readFailure]. rewrite Hok, Hbody.
    cbn [negb]. f_equal.
    rewrite readLoop_decodeFrames, Hframes, !foldl_app. simpl. now rewrite G.
Qed.

(** A frame of type [ping] between a content frame and an end frame, in a
    chunk of its own: the content and the end are delivered, and nothing
    else. *)
Lemma C10_unknown_event_type_witness :
  let env := Samples.backend
    {| ok := true; statusText := "OK";
       body := Some [frameLine Samples.contentFrame; frameLine Samples.pingFrame;
                     frameLine Samples.endFrame] |} in
  sendMessageStream Json.parse recorder env "c1" "hello" []
  = (Resolved, [ContentCall (JSValue_of (JString "Hel")) (JSValue_of (JString "a1"));
                EndCall (JSValue_of (JString "a1"))]).
Proof.
  intros env.
  destruct (C10_unknown_event_type_is_ignored Json.parse env "token" "c1" "hello"
              [frameLine Samples.contentFrame; frameLine Samples.pingFrame;
               frameLine Samples.endFrame]
              [Samples.contentFrame] [Samples.endFrame] Samples.pingFrame
              (JObject [("type", JString "ping"); ("messageId", JString "a1")])
              eq_refl eq_refl eq_refl eq_refl eq_refl
              ltac:(intros type H; injection H as <-; vm_compute; intuition discriminate)
              (list Call) recorder []) as [_ [_ [H _]]].
  exact (H Samples.contentFrame Samples.endFrame
           (JObject [("type", JString "content"); ("content", JString "Hel");
                     ("messageId", JString "a1")])
           (JObject [("type", JString "end"); ("messageId", JString "a1")])
           eq_refl eq_refl eq_refl eq_refl).
Defined.

End StreamingClaims.

(** ** The query cache *)

Section CacheFacts.

Import ChatContext.

Lemma messagesOf_setMessages (cid : string) (f : list Message.t -> list Message.t)
  (qc : QueryClient) :
  messagesOf (setMessages cid f qc) cid = f (messagesOf qc cid).
Proof. unfold messagesOf, setMessages. simpl. now rewrite lookup_insert_eq. Qed.

Lemma messagesData_setMessages_ne (cid other : string)
  (f : list Message.t -> list Message.t) (qc : QueryClient) :
  other <> cid ->
  messagesData (setMessages cid f qc) !! other = messagesData qc !! other.
Proof. intros H. unfold setMessages. simpl. now rewrite lookup_insert_ne. Qed.

Lemma messagesOf_setConversations (cid : string)
  (f : list Conversation.t -> list Conversation.t) (qc : QueryClient) :
  messagesOf (setConversations f qc) cid = messagesOf qc cid.
Proof. reflexivity. Qed.

Lemma conversationsOf_setConversations
  (f : list Conversation.t -> list Conversation.t) (qc : QueryClient) :
  conversationsOf (setConversations f qc) = f (conversationsOf qc).
Proof. reflexivity. Qed.

Lemma conversationsOf_setMessages (cid : string)
  (f : list Message.t -> list Message.t) (qc : QueryClient) :
  conversationsOf (setMessages cid f qc) = conversationsOf qc.
Proof. reflexivity. Qed.

(** Two updates of the same key compose. *)
Lemma setMessages_setMessages (cid : string) (f g : list Message.t -> list Message.t)
  (qc : QueryClient) :
  setMessages cid g (setMessages cid f qc) = setMessages cid (fun old => g (f old)) qc.
Proof.
  unfold setMessages. simpl. f_equal.
  now rewrite lookup_insert_eq, insert_insert_eq.
Qed.

Lemma setConversations_setConversations
  (f g : list Conversation.t -> list Conversation.t) (qc : QueryClient) :
  setConversations g (setConversations f qc) = setConversations (fun old => g (f old)) qc.
Proof. reflexivity. Qed.

(** Updates of the two families of keys commute. *)
Lemma setMessages_setConversations (cid : string) (f : list Message.t -> list Message.t)
  (g : list Conversation.t -> list Conversation.t) (qc : QueryClient) :
  setMessages cid f (setConversations g qc) = setConversations g (setMessages cid f qc).
Proof. reflexivity. Qed.

Lemma setMessages_ext (cid : string) (f g : list Message.t -> list Message.t)
  (qc : QueryClient) :
  (forall old, f old = g old) -> setMessages cid f qc = setMessages cid g qc.
Proof. intros H. unfold setMessages. now rewrite H. Qed.

Lemma setConversations_ext (f g : list Conversation.t -> list Conversation.t)
  (qc : QueryClient) :
  (forall old, f old = g old) -> setConversations f qc = setConversations g qc.
Proof. intros H. unfold setConversations. now rewrite H. Qed.

(** Clearing the streaming flag of a message that has it cleared changes
    nothing. *)
Lemma finalize_finalize (messageId : string) (old : list Message.t) :
  finalize messageId (finalize messageId old) = finalize messageId old.
Proof.
  unfold finalize. rewrite List.map_map. apply List.map_ext. intros msg.
  destruct (String.eqb (Message.id msg) messageId) eqn:E; simpl; now rewrite E.
Qed.

Lemma retitle_retitle (cid : string) (title : Utf16.text) (old : list Conversation.t) :
  let retitle := List.map (fun conv =>
    if String.eqb (Conversation.id conv) cid then Conversation.withTitle conv title else conv) in
  retitle (retitle old) = retitle old.
Proof.
  simpl. rewrite List.map_map. apply List.map_ext. intros conv.
  destruct (String.eqb (Conversation.id conv) cid) eqn:E; simpl; now rewrite E.
Qed.

End CacheFacts.

(** ** Claims about the conversation cache *)

Section CacheClaims.

Import ChatContext.

Lemma lookup_map {A B : Type} (f : A -> B) (l : list A) (i : nat) :
  List.map f l !! i = f <$> (l !! i).
Proof.
  revert i. induction l as [|x l IH]; intros [|i]; simpl; try reflexivity. apply IH.
Qed.

Lemma map_id_on {A : Type} (f : A -> A) (l : list A) :
  (forall x, In x l -> f x = x) -> List.map f l = l.
Proof.
  induction l as [|x l IH]; intros H; [reflexivity|].
  simpl. rewrite H by (now left). rewrite IH; [reflexivity|].
  intros y Hy. apply H. now right.
Qed.

(** Processing the end event of a message twice is processing it once. *)
Lemma onEnd_onEnd (cl : Render) (message : Utf16.text) (cid messageId : string)
  (s : Store) :
  onEnd cl message cid messageId (onEnd cl message cid messageId s)
  = onEnd cl message cid messageId s.
Proof.
  destruct s as [qc st]. unfold onEnd.
  destruct (isFirstExchange cl cid); unfold updateCache, setState; simpl; f_equal.
  - rewrite setMessages_setConversations, setMessages_setMessages.
    rewrite setConversations_setConversations.
    rewrite (setMessages_ext _ _ (finalize messageId)) by apply finalize_finalize.
    apply setConversations_ext. intros old. apply retitle_retitle.
  - rewrite setMessages_setMessages. apply setMessages_ext. apply finalize_finalize.
Qed.

(** C7: clearing the streaming flag of a message twice is the same as
    clearing it once: on the message list the updater maps over, on the
    cache entry of the conversation, and for the whole effect of the [onEnd]
    callback on the store. *)
Theorem C7_finalize_is_idempotent (messageId : string) :
  (forall old : list Message.t,
     finalize messageId (finalize messageId old) = finalize messageId old)
  /\ (forall (cid : string) (qc : QueryClient),
        setMessages cid (finalize messageId) (setMessages cid (finalize messageId) qc)
        = setMessages cid (finalize messageId) qc)
  /\ (forall (cl : Render) (message : Utf16.text) (cid : string) (s : Store),
        onEnd cl message cid messageId (onEnd cl message cid messageId s)
        = onEnd cl message cid messageId s).
Proof.
  split; [apply finalize_finalize|]. split.
  - intros cid qc. rewrite setMessages_setMessages. apply setMessages_ext.
    apply finalize_finalize.
  - intros cl message cid s. apply onEnd_onEnd.
Qed.

(** C8: patching the content of a message id that does not occur in the
    list returns the list as it was, in replace and in append mode.  In
    general the patched list has the messages of the old one position by
    position: a message with another id is untouched, and a message with the
    id keeps its id, role, timestamp and streaming flag and gets the new
    content (the fragment, or the old content followed by the fragment).
    [updateMessageInCache] applies this to the message list of the one
    conversation and touches no other key of the cache. *)
Theorem C8_patch_changes_only_the_content (messageId content : string) (append : bool)
  (old : list Message.t) :
  ((forall msg, In msg old -> Message.id msg <> messageId) ->
     patchContent messageId content append old = old)
  /\ length (patchContent messageId content append old) = length old
  /\ (forall (i : nat) (msg : Message.t),
        old !! i = Some msg ->
        exists msg',
          patchContent messageId content append old !! i = Some msg'
          /\ Message.id msg' = Message.id msg
          /\ Message.role msg' = Message.role msg
          /\ Message.timestamp msg' = Message.timestamp msg
          /\ Message.isStreaming msg' = Message.isStreaming msg
          /\ (Message.id msg <> messageId -> msg' = msg)
          /\ (Message.id msg = messageId ->
              Message.content msg' =
                if append then Message.content msg +:+ content else content))
  /\ (forall (cid : string) (qc : QueryClient),
        let qc' := updateMessageInCache cid messageId content append qc in
        messagesOf qc' cid = patchContent messageId content append (messagesOf qc cid)
        /\ conversationsData qc' = conversationsData qc
        /\ forall other, other <> cid -> messagesData qc' !! other = messagesData qc !! other).
Proof.
  split; [|split; [|split]]; cycle 3.
  { intros cid qc qc'. subst qc'. unfold updateMessageInCache.
    split; [apply messagesOf_setMessages|]. split; [reflexivity|].
    intros other Hne. now apply messagesData_setMessages_ne. }
  - intros Habsent. apply map_id_on. intros msg Hin.
    destruct (String.eqb_spec (Message.id msg) messageId) as [E|_]; [|reflexivity].
    now apply Habsent in Hin.
  - apply List.length_map.
  - intros i msg Hi. unfold patchContent. rewrite lookup_map, Hi. simpl.
    eexists. split; [reflexivity|].
    destruct (String.eqb_spec (Message.id msg) messageId) as [E|E]; simpl;
      repeat split; try reflexivity; intros; congruence.
Qed.

(** Against C9 as stated: [updatedAt] does not advance on every append.
    The conversation [c1] carries the time the server gave it, in 2024; an
    append made while the clock of the browser reads 1999 writes that
    reading over it, and [updatedAt] has gone back. *)
Lemma C9_updatedAt_goes_back :
  let qc := queryClient Samples.store in
  let qc' := addMessageToCache "1999-12-31T23:59:59.000Z" "c1" Samples.reply qc in
  List.map Conversation.updatedAt (conversationsOf qc)
  = ["2024-01-01T00:00:00.000Z"; "2024-01-01T00:00:00.000Z"; "2024-01-01T00:00:00.000Z"]
  /\ List.map Conversation.updatedAt (conversationsOf qc')
     = ["1999-12-31T23:59:59.000Z"; "2024-01-01T00:00:00.000Z"; "2024-01-01T00:00:00.000Z"]
  /\ isoBefore "1999-12-31T23:59:59.000Z" "2024-01-01T00:00:00.000Z" = true
  /\ messagesOf qc' "c1" = [Samples.question; Samples.reply].
Proof. vm_compute. repeat split; reflexivity. Qed.

(** C9, as the code has it: appending a message puts it at the tail of the
    target conversation's message list, after the messages already there and
    in their order; the message lists of the other conversations stay as
    they are.  In the conversation list, the target conversation gets the
    clock reading as its [updatedAt], whatever value it had, and keeps its
    other fields; every other conversation is untouched.  A later append
    carries the reading of its own time. *)
Theorem C9_append_message (now : string) (cid : string) (message : Message.t)
  (qc : QueryClient) :
  let qc' := addMessageToCache now cid message qc in
  messagesOf qc' cid = messagesOf qc cid ++ [message]
  /\ (forall other, other <> cid -> messagesData qc' !! other = messagesData qc !! other)
  /\ length (conversationsOf qc') = length (conversationsOf qc)
  /\ (forall (i : nat) (conv : Conversation.t),
        conversationsOf qc !! i = Some conv ->
        exists conv',
          conversationsOf qc' !! i = Some conv'
          /\ Conversation.id conv' = Conversation.id conv
          /\ Conversation.title conv' = Conversation.title conv
          /\ Conversation.messages conv' = Conversation.messages conv
          /\ Conversation.createdAt conv' = Conversation.createdAt conv
          /\ Conversation.userId conv' = Conversation.userId conv
          /\ (Conversation.id conv <> cid -> conv' = conv)
          /\ (Conversation.id conv = cid -> Conversation.updatedAt conv' = now))
  /\ (forall (later : string) (next : Message.t),
        let qc'' := addMessageToCache later cid next qc' in
        messagesOf qc'' cid = messagesOf qc cid ++ [message; next]
        /\ forall conv'', In conv'' (conversationsOf qc'') ->
             Conversation.id conv'' = cid -> Conversation.updatedAt conv'' = later).
Proof.
  intros qc'. subst qc'. unfold addMessageToCache.
  split; [|split; [|split; [|split]]].
  - now rewrite messagesOf_setConversations, messagesOf_setMessages.
  - intros other Hne. now apply messagesData_setMessages_ne.
  - rewrite conversationsOf_setConversations, conversationsOf_setMessages.
    apply List.length_map.
  - intros i conv Hi.
    rewrite conversationsOf_setConversations, conversationsOf_setMessages.
    rewrite lookup_map, Hi. simpl. eexists. split; [reflexivity|].
    destruct (String.eqb_spec (Conversation.id conv) cid) as [E|E]; simpl;
      repeat split; try reflexivity; try congruence.
  - intros later next. simpl. split.
    + rewrite !messagesOf_setConversations, !messagesOf_setMessages.
      rewrite messagesOf_setConversations, messagesOf_setMessages.
      now rewrite <- List.app_assoc.
    + intros conv'' Hin Hid.
      rewrite conversationsOf_setConversations in Hin.
      apply List.in_map_iff in Hin as [conv' [Heq _]].
      destruct (String.eqb_spec (Conversation.id conv') cid) as [E|E];
        subst conv''; [reflexivity | contradiction].
Qed.

(** *** The callbacks of [sendMessage] on the message list *)

Section Callbacks.

Variable cl : Render.
Variable message : Utf16.text.
Variable cid : string.

Lemma messages_onUserMessage (now : string) (m : Message.t) (s : Store) :
  messagesOf (queryClient (onUserMessage cid now m s)) cid
  = messagesOf (queryClient s) cid ++ [m].
Proof.
  unfold onUserMessage, updateCache, addMessageToCache. simpl.
  now rewrite messagesOf_setConversations, messagesOf_setMessages.
Qed.

Lemma messages_onAssistantMessageStart (now mid ts : string) (s : Store) :
  messagesOf (queryClient (onAssistantMessageStart cid now mid ts s)) cid
  = messagesOf (queryClient s) cid
    ++ [{| Message.id := mid; Message.role := RoleAssistant; Message.content := "";
           Message.timestamp := ts; Message.isStreaming := Some true |}].
Proof.
  unfold onAssistantMessageStart, setState, updateCache, addMessageToCache. simpl.
  now rewrite messagesOf_setConversations, messagesOf_setMessages.
Qed.

Lemma messages_onContent (content mid : string) (s : Store) :
  messagesOf (queryClient (onContent cid content mid s)) cid
  = patchContent mid content true (messagesOf (queryClient s) cid).
Proof.
  unfold onContent, updateCache, updateMessageInCache. simpl.
  now rewrite messagesOf_setMessages.
Qed.

Lemma messages_onEnd (mid : string) (s : Store) :
  messagesOf (queryClient (onEnd cl message cid mid s)) cid
  = finalize mid (messagesOf (queryClient s) cid).
Proof.
  unfold onEnd. destruct (isFirstExchange cl cid); unfold updateCache, setState; simpl;
    now rewrite ?messagesOf_setConversations, messagesOf_setMessages.
Qed.

Lemma state_onEnd (mid : string) (s : Store) :
  isStreaming (state (onEnd cl message cid mid s)) = false
  /\ streamingMessageId (state (onEnd cl message cid mid s)) = None.
Proof. unfold onEnd. destruct (isFirstExchange cl cid); split; reflexivity. Qed.

Lemma messages_twoFragmentExchange (um : Message.t) (a1 ts f1 f2 : string)
  (t1 t2 t3 t4 t5 : string) (s : Store) :
  let final := applyEvents cl message cid (twoFragmentExchange um a1 ts f1 f2 t1 t2 t3 t4 t5) s in
  let patched (l : list Message.t) :=
    finalize a1 (patchContent a1 f2 true (patchContent a1 f1 true l)) in
  messagesOf (queryClient final) cid
  = patched (messagesOf (queryClient s) cid ++ [um]) ++ [finishedReply a1 ts (f1 +:+ f2)].
Proof.
  unfold applyEvents, twoFragmentExchange. cbn [foldl applyEvent].
  rewrite messages_onEnd, !messages_onContent, messages_onAssistantMessageStart,
    messages_onUserMessage.
  unfold finalize, patchContent. rewrite !List.map_app. f_equal.
  simpl. rewrite String.eqb_refl. simpl. rewrite String.eqb_refl. simpl.
  rewrite String.eqb_refl. reflexivity.
Qed.

End Callbacks.

(** [sendMessage] called without a conversation id, as the chat interface
    calls it, while a conversation is selected: the events of the stream
    reach the callbacks closed over the selected conversation. *)
Lemma sendMessage_to_selected (cl : Render) (x : Exchange) (message : Utf16.text)
  (uid cid : string) (s : Store) :
  user cl = Some uid ->
  currentConversationId (renderedState cl) = Some cid ->
  cid <> "" ->
  settled x = ChatAPI.Resolved ->
  sendMessage cl x message None s
  = applyEvents cl message cid (events x) (setState (withError None) s).
Proof.
  intros Hu Hsel Hne Hok. unfold sendMessage, orElse. rewrite Hu. simpl.
  rewrite Hsel. simpl.
  destruct (String.eqb_spec cid ""); [contradiction|]. simpl. now rewrite Hok.
Qed.

(** C2: after the events user_message (any message), assistant_message_start
    for [a1], content [Hel] for [a1], content [lo] for [a1] and end for [a1],
    applied to any store by the callbacks of [sendMessage], the message list
    of the conversation contains the assistant message [a1] with content
    exactly [Hello] and the streaming flag cleared, at its tail, and the
    state cell is no longer streaming.  When the user message has another id
    and no earlier message has id [a1], the list is the old list followed by
    the user message and that reply.  For arbitrary fragments the content is
    the first fragment followed by the second: a fragment is appended to what
    is there, not put in its place. *)
Theorem C2_streamed_reply_is_assembled (cl : Render) (message : Utf16.text) (cid : string)
  (um : Message.t) (a1 ts : string) (t1 t2 t3 t4 t5 : string) (s : Store) :
  let final :=
    applyEvents cl message cid (twoFragmentExchange um a1 ts "Hel" "lo" t1 t2 t3 t4 t5) s in
  In (finishedReply a1 ts "Hello") (messagesOf (queryClient final) cid)
  /\ List.last (messagesOf (queryClient final) cid) um = finishedReply a1 ts "Hello"
  /\ isStreaming (state final) = false
  /\ streamingMessageId (state final) = None
  /\ (Message.id um <> a1 ->
      (forall m, In m (messagesOf (queryClient s) cid) -> Message.id m <> a1) ->
      messagesOf (queryClient final) cid
      = messagesOf (queryClient s) cid ++ [um; finishedReply a1 ts "Hello"])
  /\ (forall f1 f2 : string,
        let final' :=
          applyEvents cl message cid (twoFragmentExchange um a1 ts f1 f2 t1 t2 t3 t4 t5) s in
        In (finishedReply a1 ts (f1 +:+ f2)) (messagesOf (queryClient final') cid)).
Proof.
  intros final.
  assert (forall f1 f2,
    In (finishedReply a1 ts (f1 +:+ f2))
       (messagesOf (queryClient (applyEvents cl message cid
          (twoFragmentExchange um a1 ts f1 f2 t1 t2 t3 t4 t5) s)) cid)) as G.
  { intros f1 f2. rewrite messages_twoFragmentExchange.
    apply List.in_or_app. right. now left. }
  split; [exact (G "Hel" "lo")|].
  split; [subst final; rewrite messages_twoFragmentExchange; apply List.last_last|].
  split; [apply state_onEnd|]. split; [apply state_onEnd|].
  split; [|exact G].
  intros Hum Hfresh. subst final. rewrite messages_twoFragmentExchange.
  cbv zeta.
  assert (forall (c : string) (l : list Message.t),
            (forall m, In m l -> Message.id m <> a1) -> patchContent a1 c true l = l) as P.
  { intros c l Hl. apply map_id_on. intros m Hm.
    destruct (String.eqb_spec (Message.id m) a1) as [E|_]; [|reflexivity].
    now apply Hl in Hm. }
  assert (forall m, In m (messagesOf (queryClient s) cid ++ [um]) -> Message.id m <> a1) as F.
  { intros m Hm. apply List.in_app_or in Hm as [Hm | [<- | []]]; [now apply Hfresh | exact Hum]. }
  rewrite (P "Hel" _ F), (P "lo" _ F).
  assert (finalize a1 (messagesOf (queryClient s) cid ++ [um])
          = messagesOf (queryClient s) cid ++ [um]) as ->.
  { apply map_id_on. intros m Hm.
    destruct (String.eqb_spec (Message.id m) a1) as [E|_]; [|reflexivity].
    now apply F in Hm. }
  now rewrite <- List.app_assoc.
Qed.

(** *** The automatic title *)


Lemma find_some_of_In (cid : string) (convs : list Conversation.t) (conv : Conversation.t) :
  In conv convs -> Conversation.id conv = cid ->
  exists found,
    List.find (fun c => String.eqb (Conversation.id c) cid) convs = Some found.
Proof.
  intros Hin Hid.
  destruct (List.find (fun c => String.eqb (Conversation.id c) cid) convs) as [found|] eqn:E;
    [now exists found|].
  exfalso. apply (List.find_none _ _ E) in Hin. rewrite Hid, String.eqb_refl in Hin.
  discriminate.
Qed.

(** What the render of a store makes of the first-exchange test when the
    target conversation is the selected one and is in the list. *)
Lemma isFirstExchange_render (u : option string) (s0 : Store) (cid : string)
  (conv0 : Conversation.t) :
  currentConversationId (state s0) = Some cid ->
  cid <> "" ->
  In conv0 (conversationsOf (queryClient s0)) ->
  Conversation.id conv0 = cid ->
  isFirstExchange (render u s0) cid
  = (length (messagesOf (queryClient s0) cid) <=? 1)%nat.
Proof.
  intros Hsel Hne Hin Hid. unfold isFirstExchange, render. simpl.
  destruct (find_some_of_In cid _ conv0 Hin Hid) as [found ->].
  rewrite Hsel. simpl.
  destruct (String.eqb_spec cid ""); [contradiction | reflexivity].
Qed.




(** *** Deleting a conversation *)

Lemma filter_none_left (cid : string) (convs : list Conversation.t) (conv : Conversation.t) :
  In conv (List.filter (fun c => negb (String.eqb (Conversation.id c) cid)) convs) ->
  Conversation.id conv <> cid.
Proof.
  intros Hin Hid. apply List.filter_In in Hin as [_ H].
  rewrite Hid, String.eqb_refl in H. discriminate.
Qed.

(** C6: a delete that the backend accepts, issued from the render of a
    store, leaves in the conversation list the conversations with another
    id, in their order, and drops the message list of the deleted id; the
    message lists of the other conversations stay.  If the deleted
    conversation was the selected one, the selection becomes the head of the
    remaining list, or none when nothing remains; otherwise the selection is
    as before. *)
Theorem C6_delete_conversation (u : option string) (s : Store) (cid : string) :
  let s' := deleteConversation (render u s) ChatAPI.Resolved cid s in
  let remaining :=
    List.filter (fun conv => negb (String.eqb (Conversation.id conv) cid))
      (conversationsOf (queryClient s)) in
  conversationsOf (queryClient s') = remaining
  /\ (forall conv, In conv (conversationsOf (queryClient s')) -> Conversation.id conv <> cid)
  /\ (forall conv, In conv (conversationsOf (queryClient s)) -> Conversation.id conv <> cid ->
        In conv (conversationsOf (queryClient s')))
  /\ messagesData (queryClient s') !! cid = None
  /\ (forall other, other <> cid ->
        messagesData (queryClient s') !! other = messagesData (queryClient s) !! other)
  /\ (currentConversationId (state s) = Some cid ->
      currentConversationId (state s')
      = match remaining with
        | first :: _ => Some (Conversation.id first)
        | [] => None
        end)
  /\ (currentConversationId (state s) <> Some cid ->
      currentConversationId (state s') = currentConversationId (state s)).
Proof.
  intros s' remaining.
  assert (queryClient s' = deleteConversationSuccess cid (queryClient s)) as Hqc.
  { subst s'. unfold deleteConversation. simpl.
    destruct (currentConversationId (state s)) as [sel|]; [|reflexivity].
    destruct (String.eqb sel cid); reflexivity. }
  assert (conversationsOf (queryClient s') = remaining) as Hrem.
  { rewrite Hqc. reflexivity. }
  split; [exact Hrem|]. split; [|split; [|split; [|split; [|split]]]].
  - rewrite Hrem. intros conv. apply filter_none_left.
  - rewrite Hrem. intros conv Hin Hid. apply List.filter_In. split; [exact Hin|].
    destruct (String.eqb_spec (Conversation.id conv) cid); [contradiction | reflexivity].
  - rewrite Hqc. unfold deleteConversationSuccess, removeMessages. simpl.
    apply lookup_delete_eq.
  - intros other Hne. rewrite Hqc. unfold deleteConversationSuccess, removeMessages. simpl.
    now apply lookup_delete_ne.
  - intros Hsel. subst s'. unfold deleteConversation. simpl.
    rewrite Hsel, String.eqb_refl. reflexivity.
  - intros Hsel. subst s'. unfold deleteConversation, updateCache, setState. simpl.
    destruct (currentConversationId (state s)) as [sel|] eqn:E; simpl; [|now rewrite E].
    destruct (String.eqb_spec sel cid) as [->|_]; [contradiction | simpl; now rewrite E].
Qed.

End CacheClaims.

(** ** The scenarios of the specification on the sample data *)

Section Scenarios.

Import ChatAPI ChatContext.

(** The five frames of one exchange, read from the text of the stream. *)
Example stream_of_one_exchange :
  let stream :=
    frameLine (dq "{'type':'user_message','message':{'id':'u1','role':'user','content':'Hi','timestamp':'t'}}")
    +:+ frameLine (dq "{'type':'assistant_message_start','messageId':'a1','timestamp':'t'}")
    +:+ frameLine Samples.contentFrame
    +:+ frameLine (dq "{'type':'content','content':'lo','messageId':'a1'}")
    +:+ String JS.newline (frameLine Samples.endFrame) in
  wellFormedStream stream = true
  /\ snd (sendMessageStream Json.parse recorder
            (Samples.backend {| ok := true; statusText := "OK"; body := Some [stream] |})
            "c1" "Hi" [])
     = [UserMessageCall (JSValue_of (JObject [("id", JString "u1"); ("role", JString "user");
                                              ("content", JString "Hi"); ("timestamp", JString "t")]));
        AssistantMessageStartCall (JSValue_of (JString "a1")) (JSValue_of (JString "t"));
        ContentCall (JSValue_of (JString "Hel")) (JSValue_of (JString "a1"));
        ContentCall (JSValue_of (JString "lo")) (JSValue_of (JString "a1"));
        EndCall (JSValue_of (JString "a1"))].
Proof. vm_compute. split; reflexivity. Qed.

(** A payload that is the JSON value [null], and one with an unknown
    [type], make no callback. *)
Example null_and_unknown_frames :
  readLoop Json.parse recorder [frameLine "null" +:+ frameLine Samples.pingFrame
                                +:+ frameLine "42" +:+ frameLine Samples.endFrame] []
  = [EndCall (JSValue_of (JString "a1"))].
Proof. vm_compute. reflexivity. Qed.

(** Absent callbacks are not called. *)
Example only_onEnd_given :
  readLoop Json.parse
    {| ChatAPI.onUserMessage := None; ChatAPI.onAssistantMessageStart := None;
       ChatAPI.onContent := None; ChatAPI.onEnd := Some (fun _ n => S n);
       ChatAPI.onError := None |}
    [frameLine Samples.contentFrame; frameLine Samples.endFrame] 0
  = 1.
Proof. vm_compute. reflexivity. Qed.

(** The exchange of the specification on the sample store: the reply is
    assembled and, the conversation having held one message, titled. *)
Example hello_exchange :
  let um := {| Message.id := "u1"; Message.role := RoleUser; Message.content := "Hi";
               Message.timestamp := "t1"; Message.isStreaming := None |} in
  let final :=
    applyEvents (render (Some "uid") Samples.store) (Utf16.literal "Hi") "c1"
      (twoFragmentExchange um "a1" "t2" "Hel" "lo" "n1" "n2" "n3" "n4" "n5") Samples.store in
  messagesOf (queryClient final) "c1" = [Samples.question; um; finishedReply "a1" "t2" "Hello"]
  /\ List.map Conversation.title (conversationsOf (queryClient final))
     = List.map Utf16.literal ["Hi"; "Second"; "Third"]
  /\ List.map Conversation.updatedAt (conversationsOf (queryClient final))
     = ["n2"; "2024-01-01T00:00:00.000Z"; "2024-01-01T00:00:00.000Z"]
  /\ state final = Samples.idle (Some "c1").
Proof. vm_compute. repeat split; reflexivity. Qed.

(** Deleting the selected conversation of three selects the first of the
    remaining two; deleting the last conversation selects none; deleting
    another conversation keeps the selection. *)
Example delete_then_reselect :
  let after cid s := deleteConversation (render (Some "uid") s) Resolved cid s in
  List.map Conversation.id (conversationsOf (queryClient (after "c1" Samples.store)))
  = ["c2"; "c3"]
  /\ currentConversationId (state (after "c1" Samples.store)) = Some "c2"
  /\ messagesData (queryClient (after "c1" Samples.store)) !! "c1" = None
  /\ currentConversationId (state (after "c3" Samples.store)) = Some "c1"
  /\ conversationsOf (queryClient (after "c1" Samples.lastConversation)) = []
  /\ currentConversationId (state (after "c1" Samples.lastConversation)) = None.
Proof. vm_compute. repeat split; reflexivity. Qed.

(** A delete the backend refuses removes nothing. *)
Example delete_refused :
  deleteConversation (render (Some "uid") Samples.store) (Rejected "Failed") "c1" Samples.store
  = {| queryClient := queryClient Samples.store;
       state := withError (Some "Failed to delete conversation") (state Samples.store) |}.
Proof. reflexivity. Qed.

(** A response without a body, and a call with nobody signed in, reject
    before any frame is read. *)
Example rejections_before_the_stream :
  sendMessageStream Json.parse recorder
    (Samples.backend {| ok := true; statusText := "OK"; body := None |}) "c1" "Hi" []
  = (Rejected "Failed to get response reader", [])
  /\ sendMessageStream Json.parse recorder
       {| currentUser := None; API_BASE_URL := "http://localhost:8000";
          fetch := fun _ _ _ =>
            {| ok := true; statusText := "OK"; body := Some [frameLine Samples.endFrame] |} |}
       "c1" "Hi" []
     = (Rejected "User not authenticated", []).
Proof. split; reflexivity. Qed.

(** A short text is its own title; a long one is cut after 50 code units,
    also between the two code units of a character outside the basic plane
    (here U+1F600 after 49 letters). *)
Example titles :
  autoTitle (Utf16.literal "Hi") = Utf16.literal "Hi"
  /\ autoTitle Samples.longQuestion
     = Utf16.literal "Explain quantum computing in simple terms, with an..."
  /\ length (autoTitle Samples.longQuestion) = 53
  /\ autoTitle (replicate 49 97%N ++ [55357%N; 56832%N])
     = replicate 49 97%N ++ [55357%N] ++ Utf16.literal "..."
  /\ autoTitle (replicate 50 12354%N) = replicate 50 12354%N.
Proof. vm_compute. repeat split; reflexivity. Qed.

(** With no conversation selected, [sendMessage] creates one and sends to
    it; the render does not list it, so the end event does not title it. *)
Example first_message_without_selection :
  let empty := {| queryClient := {| conversationsData := None; messagesData := ∅ |};
                  state := Samples.idle None |} in
  let um := {| Message.id := "u1"; Message.role := RoleUser; Message.content := "Hi";
               Message.timestamp := "t1"; Message.isStreaming := None |} in
  let x := {| created := Some (Samples.conversation "c9" "New Chat");
              events := twoFragmentExchange um "a1" "t2" "Hel" "lo" "n1" "n2" "n3" "n4" "n5";
              settled := Resolved |} in
  let final := sendMessage (render (Some "uid") empty) x (Utf16.literal "Hi") None empty in
  messagesOf (queryClient final) "c9" = [um; finishedReply "a1" "t2" "Hello"]
  /\ List.map Conversation.title (conversationsOf (queryClient final))
     = [Utf16.literal "New Chat"]
  /\ currentConversationId (state final) = Some "c9".
Proof. vm_compute. repeat split; reflexivity. Qed.

End Scenarios.

(** * Further properties of the streaming client *)

Section StreamTrace.

Import ChatAPI.

Variable JSON_parse : string -> option JSON.

(** The recording callbacks only extend the trace they are given. *)
Lemma dispatch_recorder_app (data : JSON) (tr : list Call) :
  dispatch recorder data tr = tr ++ dispatch recorder data [].
Proof.
  unfold dispatch.
  destruct (member data "type") as [[|[| | |type| |]]|]; try (now rewrite List.app_nil_r).
  repeat match goal with
  | |- context [String.eqb type ?lit] => destruct (String.eqb type lit); [reflexivity|]
  end.
  now rewrite List.app_nil_r.
Qed.

Lemma handlePayload_recorder_app (payload : string) (tr : list Call) :
  handlePayload JSON_parse recorder payload tr
  = tr ++ handlePayload JSON_parse recorder payload [].
Proof.
  unfold handlePayload. destruct (JSON_parse payload);
    [apply dispatch_recorder_app | now rewrite List.app_nil_r].
Qed.

Lemma frames_recorder_app (frames : list string) (tr : list Call) :
  foldl (fun acc p => handlePayload JSON_parse recorder p acc) tr frames
  = tr ++ foldl (fun acc p => handlePayload JSON_parse recorder p acc) [] frames.
Proof.
  revert tr. induction frames as [|p frames IH]; intros tr; simpl.
  - now rewrite List.app_nil_r.
  - rewrite IH, (IH (handlePayload JSON_parse recorder p [])).
    rewrite handlePayload_recorder_app. now rewrite List.app_assoc.
Qed.

(** A frame makes at most one callback. *)
Lemma dispatch_recorder_length (data : JSON) : length (dispatch recorder data []) <= 1.
Proof.
  unfold dispatch.
  destruct (member data "type") as [[|[| | |type| |]]|]; simpl; try lia.
  repeat match goal with
  | |- context [String.eqb type ?lit] => destruct (String.eqb type lit); [simpl; lia|]
  end.
  simpl. lia.
Qed.

Lemma handlePayload_recorder_length (payload : string) :
  length (handlePayload JSON_parse recorder payload []) <= 1.
Proof.
  unfold handlePayload. destruct (JSON_parse payload);
    [apply dispatch_recorder_length | simpl; lia].
Qed.

(** What a frame does to the caller's state is what its recorded call does. *)
Lemma dispatch_replay (St : Type) (cb : Callbacks St) (data : JSON) (st : St) :
  dispatch cb data st = foldl (replay cb) st (dispatch recorder data []).
Proof.
  unfold dispatch.
  destruct (member data "type") as [[|[| | |type| |]]|]; try reflexivity.
  repeat match goal with
  | |- context [String.eqb type ?lit] => destruct (String.eqb type lit); [reflexivity|]
  end.
  reflexivity.
Qed.

Lemma handlePayload_replay (St : Type) (cb : Callbacks St) (payload : string) (st : St) :
  handlePayload JSON_parse cb payload st
  = foldl (replay cb) st (handlePayload JSON_parse recorder payload []).
Proof.
  unfold handlePayload. destruct (JSON_parse payload); [apply dispatch_replay | reflexivity].
Qed.

Lemma frames_replay (St : Type) (cb : Callbacks St) (frames : list string) (st : St) :
  foldl (fun acc p => handlePayload JSON_parse cb p acc) st frames
  = foldl (replay cb) st
      (foldl (fun acc p => handlePayload JSON_parse recorder p acc) [] frames).
Proof.
  revert st. induction frames as [|p frames IH]; intros st; [reflexivity|].
  simpl. rewrite IH, (frames_recorder_app frames (handlePayload _ _ p [])).
  rewrite foldl_app. now rewrite <- handlePayload_replay.
Qed.

Lemma frames_recorder_length (frames : list string) :
  length (foldl (fun acc p => handlePayload JSON_parse recorder p acc) [] frames)
  <= length frames.
Proof.
  induction frames as [|p frames IH]; simpl; [lia|].
  rewrite frames_recorder_app, List.length_app.
  pose proof (handlePayload_recorder_length p). lia.
Qed.

(** The recorded call of a parsed frame is the row of the table for its
    type. *)
Lemma dispatch_callOf (data : JSON) :
  dispatch recorder data []
  = match callOf data with
    | Some call => [call]
    | None => []
    end.
Proof.
  unfold dispatch, callOf, member.
  destruct data as [| | | | |fields]; try reflexivity.
  destruct (lookupField "type" fields) as [[| | |type| |]|]; try reflexivity.
  unfold callTable. cbn [List.find fst snd].
  rewrite !(String.eqb_sym _ type).
  repeat match goal with
  | |- context [String.eqb type ?lit] => destruct (String.eqb type lit); [reflexivity|]
  end.
  reflexivity.
Qed.

Lemma frames_callsOf (frames : list string) :
  foldl (fun acc p => handlePayload JSON_parse recorder p acc) [] frames
  = callsOf JSON_parse frames.
Proof.
  induction frames as [|p frames IH]; [reflexivity|].
  cbn [foldl]. rewrite frames_recorder_app, IH.
  unfold callsOf. cbn [omap list_omap]. unfold handlePayload.
  destruct (JSON_parse p) as [data|]; [|reflexivity].
  cbn [mbind option_bind]. rewrite dispatch_callOf.
  destruct (callOf data); reflexivity.
Qed.

(** X1: the loop implements the table of event types.  The invocations it
    makes for a stream are those the table prescribes for the payloads of
    the lines that begin with [data: ], taken chunk by chunk in order: one
    invocation, with the fields of the frame as arguments, for each payload
    that parses to an object whose [type] is in the table, and none for any
    other payload.  Whatever the five callbacks do, and whichever of them
    are absent, the caller's state after the loop is obtained by running
    those invocations in that order. *)
Theorem X1_loop_implements_the_event_table (chunks : list string) :
  trace JSON_parse chunks = callsOf JSON_parse (decodeFrames chunks)
  /\ (forall (St : Type) (cb : Callbacks St) (st : St),
        readLoop JSON_parse cb chunks st
        = foldl (replay cb) st (callsOf JSON_parse (decodeFrames chunks)))
  /\ (forall (st : list Call),
        readLoop JSON_parse recorder chunks st
        = st ++ callsOf JSON_parse (decodeFrames chunks)).
Proof.
  assert (trace JSON_parse chunks = callsOf JSON_parse (decodeFrames chunks)) as E.
  { unfold trace. rewrite readLoop_decodeFrames. apply frames_callsOf. }
  split; [exact E|]. split.
  - intros St cb st. rewrite <- E. unfold trace.
    rewrite !readLoop_decodeFrames. apply frames_replay.
  - intros st. rewrite <- E. unfold trace. rewrite !readLoop_decodeFrames.
    apply frames_recorder_app.
Qed.

(** X2: the invocations made for a stream delivered in two parts are the
    invocations for the first part followed by those for the second, so
    calls already made are never withdrawn or reordered by later chunks; and
    there are never more invocations than decoded frames. *)
Theorem X2_trace_is_sequential (before after : list string) :
  trace JSON_parse (before ++ after) = trace JSON_parse before ++ trace JSON_parse after
  /\ length (trace JSON_parse before) <= length (decodeFrames before).
Proof.
  unfold trace. rewrite !readLoop_decodeFrames. split.
  - unfold decodeFrames. rewrite List.flat_map_app, foldl_app.
    apply frames_recorder_app.
  - apply frames_recorder_length.
Qed.

End StreamTrace.

Section StreamLines.

Import ChatAPI.

(** One line that does not start with the prefix contributes no payload. *)
Lemma payloads_other_line (line rest : string) :
  noNewline line = true ->
  JS.startsWith line "data: " = false ->
  payloads (line +:+ String JS.newline rest) = payloads rest.
Proof.
  intros Hline Hprefix. rewrite payloads_app_newline.
  unfold payloads at 1. rewrite split_no_sep by (now apply noNewline_no_sep).
  simpl. now rewrite Hprefix.
Qed.

(** The payload of a chunk that is one unterminated data line. *)
Lemma payloads_open_line (payload : string) :
  noNewline payload = true -> payloads ("data: " +:+ payload) = [payload].
Proof.
  intros H. unfold payloads. rewrite split_no_sep by (apply noNewline_no_sep; exact H).
  simpl. unfold JS.startsWith. rewrite prefix_append. reflexivity.
Qed.

Lemma noNewline_app (a b : string) :
  noNewline a = true -> noNewline b = true -> noNewline (a +:+ b) = true.
Proof.
  intros Ha Hb. induction a as [|c a IH]; [exact Hb|].
  rewrite append_cons. cbn [noNewline] in *.
  apply andb_prop in Ha as [Hc Ha]. rewrite Hc. simpl. now apply IH.
Qed.

(** X3: a line that does not begin with the six characters [data: ] (a
    blank line, a comment or another field of an event stream, a data line
    written without the space) is passed over: the chunk has the effect of
    the text after that line, for any callbacks. *)
Theorem X3_other_lines_are_passed_over (JSON_parse : string -> option JSON) (St : Type)
  (cb : Callbacks St) (line rest : string) (st : St) :
  noNewline line = true ->
  JS.startsWith line "data: " = false ->
  handleChunk JSON_parse cb (line +:+ String JS.newline rest) st
  = handleChunk JSON_parse cb rest st.
Proof.
  intros Hline Hprefix. rewrite !handleChunk_payloads.
  now rewrite payloads_other_line.
Qed.

(** Frames separated by a blank line, a comment line before them, and a
    data line without the space after the colon. *)
Lemma X3_other_lines_witness :
  handleChunk Json.parse recorder
    (EmptyString +:+ String JS.newline (frameLine Samples.endFrame)) []
  = handleChunk Json.parse recorder (frameLine Samples.endFrame) []
  /\ handleChunk Json.parse recorder
       (": keep-alive" +:+ String JS.newline (frameLine Samples.endFrame)) []
     = handleChunk Json.parse recorder (frameLine Samples.endFrame) []
  /\ handleChunk Json.parse recorder
       (("data:" +:+ Samples.endFrame) +:+ String JS.newline EmptyString) []
     = handleChunk Json.parse recorder EmptyString [].
Proof.
  split; [|split].
  - exact (X3_other_lines_are_passed_over Json.parse (list Call) recorder
             EmptyString (frameLine Samples.endFrame) [] eq_refl eq_refl).
  - exact (X3_other_lines_are_passed_over Json.parse (list Call) recorder
             ": keep-alive" (frameLine Samples.endFrame) [] eq_refl eq_refl).
  - exact (X3_other_lines_are_passed_over Json.parse (list Call) recorder
             ("data:" +:+ Samples.endFrame) EmptyString [] eq_refl eq_refl).
Defined.

(** X4: a frame line cut by a chunk boundary inside its payload.  The chunk
    that ends with the first part is read as a frame with that part as its
    payload; the second part, on the next chunk, is passed over (it does not
    begin with the prefix), and the frames after it are read as usual.  So
    the loop handles the truncated payload where the uncut stream has the
    whole one, and when the truncated payload does not parse the frame is
    lost without an error. *)
Theorem X4_frame_cut_inside_payload (JSON_parse : string -> option JSON)
  (head tail rest : string) :
  noNewline head = true ->
  noNewline tail = true ->
  JS.startsWith tail "data: " = false ->
  decodeFrames ["data: " +:+ head; tail +:+ String JS.newline rest] = head :: payloads rest
  /\ decodeFrames [("data: " +:+ head) +:+ tail +:+ String JS.newline rest]
     = (head +:+ tail) :: payloads rest
  /\ (JSON_parse head = None ->
      forall (St : Type) (cb : Callbacks St) (st : St),
        readLoop JSON_parse cb ["data: " +:+ head; tail +:+ String JS.newline rest] st
        = readLoop JSON_parse cb [rest] st).
Proof.
  intros Hhead Htail Hprefix.
  assert (decodeFrames ["data: " +:+ head; tail +:+ String JS.newline rest]
          = head :: payloads rest) as Hcut.
  { unfold decodeFrames. simpl.
    rewrite payloads_open_line, payloads_other_line by assumption.
    now rewrite List.app_nil_r. }
  split; [exact Hcut|]. split.
  - unfold decodeFrames. simpl. rewrite List.app_nil_r.
    replace (("data: " +:+ head) +:+ tail +:+ String JS.newline rest)
      with (("data: " +:+ head +:+ tail) +:+ String JS.newline rest)
      by (now rewrite !append_assoc).
    rewrite payloads_app_newline.
    rewrite payloads_open_line by (now apply noNewline_app). reflexivity.
  - intros Hparse St cb st. rewrite !readLoop_decodeFrames, Hcut.
    simpl. unfold handlePayload at 2. rewrite Hparse.
    unfold decodeFrames. simpl. now rewrite List.app_nil_r.
Qed.

(** The end frame cut after [mess]: nothing is called for it, and the
    content frame that follows is still delivered. *)
Lemma X4_frame_cut_witness :
  decodeFrames [dq "data: {'type':'end','mess";
                dq "ageId':'a1'}" +:+ String JS.newline (frameLine Samples.contentFrame)]
  = [dq "{'type':'end','mess"; Samples.contentFrame]
  /\ readLoop Json.parse recorder
       [dq "data: {'type':'end','mess";
        dq "ageId':'a1'}" +:+ String JS.newline (frameLine Samples.contentFrame)] []
     = readLoop Json.parse recorder [frameLine Samples.contentFrame] [].
Proof.
  destruct (X4_frame_cut_inside_payload Json.parse
              (dq "{'type':'end','mess") (dq "ageId':'a1'}")
              (frameLine Samples.contentFrame) eq_refl eq_refl eq_refl) as [H1 [_ H3]].
  split; [exact H1 | exact (H3 eq_refl (list Call) recorder [])].
Defined.

(** X5: how the promise of [sendMessageStream] settles when any of its
    awaits may reject.  It resolves exactly when a user is signed in, the
    token and the answer arrive, the response is ok with a body, and the
    body is read to its end.  Once the loop is reached the caller's state is
    what the loop makes of the chunks read, also when a read then rejects:
    the promise rejects with the reason of that read after the callbacks for
    the chunks before it have run.  When the loop is not reached the promise
    rejects and the state is returned as it was given.  When no await
    rejects, this is [sendMessageStream] on the collaborators of an
    [Env]. *)
Theorem X5_resolution_of_sendMessageStream (JSON_parse : string -> option JSON)
  (St : Type) (cb : Callbacks St) (net : Network) (conversationId message : string) (st : St) :
  let url := baseUrl net +:+ "/api/conversations/" +:+ conversationId +:+ "/messages/stream" in
  let result := sendMessageStreamOver JSON_parse cb net conversationId message st in
  let reached (token : string) (delivery : Delivery) (chunks : list string) :=
    idToken net = Some (Fulfilled token)
    /\ request net url token message = Fulfilled delivery
    /\ ok (received delivery) = true
    /\ body (received delivery) = Some chunks in
  (fst result = Resolved <->
     exists token delivery chunks,
       reached token delivery chunks /\ readFailure delivery = None)
  /\ (forall token delivery chunks,
        reached token delivery chunks ->
        snd result = readLoop JSON_parse cb chunks st
        /\ forall reason, readFailure delivery = Some reason -> fst result = Rejected reason)
  /\ ((forall token delivery chunks, ~ reached token delivery chunks) ->
      fst result <> Resolved /\ snd result = st)
  /\ (idToken net = None -> result = (Rejected "User not authenticated", st))
  /\ (forall reason, idToken net = Some (Failed reason) -> result = (Rejected reason, st))
  /\ (forall token reason,
        idToken net = Some (Fulfilled token) ->
        request net url token message = Failed reason ->
        result = (Rejected reason, st))
  /\ (forall env : Env,
        sendMessageStreamOver JSON_parse cb (steady env) conversationId message st
        = sendMessageStream JSON_parse cb env conversationId message st).
Proof.
  intros url result reached.
  assert (forall env : Env,
            sendMessageStreamOver JSON_parse cb (steady env) conversationId message st
            = sendMessageStream JSON_parse cb env conversationId message st) as Hsteady.
  { intros env. unfold sendMessageStreamOver, sendMessageStream, steady, streamUrl.
    cbn [idToken baseUrl request received readFailure].
    destruct (currentUser env) as [token|]; [|reflexivity]. cbn [option_map].
    destruct (ok (fetch env _ token message)); [|reflexivity]. cbn [negb].
    destruct (body (fetch env _ token message)); reflexivity. }
  subst result reached. unfold sendMessageStreamOver. fold url.
  destruct (idToken net) as [[token|reason]|] eqn:Htoken.
  - destruct (request net url token message) as [delivery|reason] eqn:Hrequest.
    + cbv zeta. destruct (ok (received delivery)) eqn:Hok; cbn [negb].
      * destruct (body (received delivery)) as [chunks|] eqn:Hbody.
        -- cbn [fst snd].
           repeat split; try discriminate; try exact Hsteady.
           ++ intros H. exists token, delivery, chunks.
              destruct (readFailure delivery); [discriminate|]. now repeat split.
           ++ intros [t [d [c [[Ht [Hr _]] Hf]]]].
              injection Ht as <-. rewrite Hrequest in Hr. injection Hr as <-.
              now rewrite Hf.
           ++ destruct H as [Ht [Hr [_ Hb]]].
              injection Ht as <-. rewrite Hrequest in Hr. injection Hr as <-.
              rewrite Hbody in Hb. now injection Hb as <-.
           ++ intros reason Hf. destruct H as [Ht [Hr _]].
              injection Ht as <-. rewrite Hrequest in Hr. injection Hr as <-.
              now rewrite Hf.
           ++ exfalso. apply (H token delivery chunks). now repeat split.
           ++ exfalso. apply (H token delivery chunks). now repeat split.
           ++ intros t reason Ht Hr. injection Ht as <-. congruence.
        -- cbn [fst snd].
           repeat split; try discriminate; try exact Hsteady.
           ++ intros [t [d [c [[Ht [Hr [_ Hb]]] _]]]].
              injection Ht as <-. rewrite Hrequest in Hr. injection Hr as <-. congruence.
           ++ destruct H as [Ht [Hr [_ Hb]]].
              injection Ht as <-. rewrite Hrequest in Hr. injection Hr as <-. congruence.
           ++ destruct H as [Ht [Hr [_ Hb]]].
              injection Ht as <-. rewrite Hrequest in Hr. injection Hr as <-. congruence.
           ++ intros t reason Ht Hr. injection Ht as <-. congruence.
      * cbn [fst snd].
        repeat split; try discriminate; try exact Hsteady.
        -- intros [t [d [c [[Ht [Hr [Ho _]]] _]]]].
           injection Ht as <-. rewrite Hrequest in Hr. injection Hr as <-. congruence.
        -- destruct H as [Ht [Hr [Ho _]]].
           injection Ht as <-. rewrite Hrequest in Hr. injection Hr as <-. congruence.
        -- destruct H as [Ht [Hr [Ho _]]].
           injection Ht as <-. rewrite Hrequest in Hr. injection Hr as <-. congruence.
        -- intros t reason Ht Hr. injection Ht as <-. congruence.
    + cbn [fst snd].
      repeat split; try discriminate; try exact Hsteady.
      * intros [t [d [c [[Ht [Hr _]] _]]]]. injection Ht as <-. congruence.
      * destruct H as [Ht [Hr _]]. injection Ht as <-. congruence.
      * destruct H as [Ht [Hr _]]. injection Ht as <-. congruence.
      * intros t r Ht Hr. injection Ht as <-. congruence.
  - cbn [fst snd].
    repeat split; try discriminate; try exact Hsteady.
    + intros [t [d [c [[Ht _] _]]]]. discriminate.
    + destruct H as [Ht _]. discriminate.
    + destruct H as [Ht _]. discriminate.
    + intros r Hr. now injection Hr as <-.
  - cbn [fst snd].
    repeat split; try discriminate; try exact Hsteady.
    + intros [t [d [c [[Ht _] _]]]]. discriminate.
    + destruct H as [Ht _]. discriminate.
    + destruct H as [Ht _]. discriminate.
Qed.

(** A connection that breaks after the first fragment of a reply: the
    fragment has been delivered, and the promise rejects with the reason of
    the failed read. *)
Example broken_stream :
  sendMessageStreamOver Json.parse recorder
    {| idToken := Some (Fulfilled "token");
       baseUrl := "http://localhost:8000";
       request := fun _ _ _ =>
         Fulfilled {| received := {| ok := true; statusText := "OK";
                                     body := Some [frameLine Samples.contentFrame] |};
                      readFailure := Some "network error" |} |}
    "c1" "Hi" []
  = (Rejected "network error",
     [ContentCall (JSValue_of (JString "Hel")) (JSValue_of (JString "a1"))]).
Proof. vm_compute. reflexivity. Qed.

End StreamLines.

(** * Further properties of the conversation cache *)

Section EventFacts.

Import ChatContext.

Variable cl : Render.
Variable message : Utf16.text.
Variable cid : string.

(** The two maps over the conversation list keep every id in place and
    every conversation with another id as it is. *)
Lemma retarget_ids (f : Conversation.t -> Conversation.t) (convs : list Conversation.t) :
  (forall conv, Conversation.id (f conv) = Conversation.id conv) ->
  List.map Conversation.id
    (List.map (fun conv => if String.eqb (Conversation.id conv) cid then f conv else conv) convs)
  = List.map Conversation.id convs.
Proof.
  intros Hf. rewrite List.map_map. apply List.map_ext. intros conv.
  destruct (String.eqb (Conversation.id conv) cid); [apply Hf | reflexivity].
Qed.

Lemma retarget_others (f : Conversation.t -> Conversation.t) (convs : list Conversation.t)
  (i : nat) (conv : Conversation.t) :
  convs !! i = Some conv ->
  Conversation.id conv <> cid ->
  List.map (fun c => if String.eqb (Conversation.id c) cid then f c else c) convs !! i
  = Some conv.
Proof.
  intros Hi Hne. rewrite lookup_map, Hi. simpl.
  destruct (String.eqb_spec (Conversation.id conv) cid); [contradiction | reflexivity].
Qed.

Lemma patchContent_ids (mid content : string) (append : bool) (old : list Message.t) :
  List.map Message.id (patchContent mid content append old) = List.map Message.id old.
Proof.
  unfold patchContent. rewrite List.map_map. apply List.map_ext. intros msg.
  destruct (String.eqb (Message.id msg) mid); reflexivity.
Qed.

Lemma finalize_ids (mid : string) (old : list Message.t) :
  List.map Message.id (finalize mid old) = List.map Message.id old.
Proof.
  unfold finalize. rewrite List.map_map. apply List.map_ext. intros msg.
  destruct (String.eqb (Message.id msg) mid); reflexivity.
Qed.

Lemma applyEvent_selection (s : Store) (timed : string * StreamEvent) :
  currentConversationId (state (applyEvent cl message cid s timed))
  = currentConversationId (state s).
Proof.
  destruct timed as [now [m|mid ts|c mid|mid|e]]; simpl; try reflexivity.
  unfold onEnd. destruct (isFirstExchange cl cid); reflexivity.
Qed.

Lemma applyEvent_conversation_ids (s : Store) (timed : string * StreamEvent) :
  List.map Conversation.id (conversationsOf (queryClient (applyEvent cl message cid s timed)))
  = List.map Conversation.id (conversationsOf (queryClient s)).
Proof.
  destruct timed as [now [m|mid ts|c mid|mid|e]]; simpl; try reflexivity.
  - apply (retarget_ids (fun conv => Conversation.withUpdatedAt conv now)). reflexivity.
  - apply (retarget_ids (fun conv => Conversation.withUpdatedAt conv now)). reflexivity.
  - unfold onEnd. destruct (isFirstExchange cl cid); simpl; [|reflexivity].
    apply (retarget_ids (fun conv => Conversation.withTitle conv (autoTitle message))).
    reflexivity.
Qed.

Lemma applyEvent_other_conversations (s : Store) (timed : string * StreamEvent)
  (i : nat) (conv : Conversation.t) :
  conversationsOf (queryClient s) !! i = Some conv ->
  Conversation.id conv <> cid ->
  conversationsOf (queryClient (applyEvent cl message cid s timed)) !! i = Some conv.
Proof.
  intros Hi Hne.
  destruct timed as [now [m|mid ts|c mid|mid|e]]; simpl; try exact Hi.
  - now apply (retarget_others (fun c => Conversation.withUpdatedAt c now)).
  - now apply (retarget_others (fun c => Conversation.withUpdatedAt c now)).
  - unfold onEnd. destruct (isFirstExchange cl cid); simpl; [|exact Hi].
    now apply (retarget_others (fun c => Conversation.withTitle c (autoTitle message))).
Qed.

Lemma applyEvent_other_messages (s : Store) (timed : string * StreamEvent) (other : string) :
  other <> cid ->
  messagesData (queryClient (applyEvent cl message cid s timed)) !! other
  = messagesData (queryClient s) !! other.
Proof.
  intros Hne.
  destruct timed as [now [m|mid ts|c mid|mid|e]]; simpl; try reflexivity;
    try (now apply lookup_insert_ne).
  unfold onEnd. destruct (isFirstExchange cl cid); simpl; now apply lookup_insert_ne.
Qed.

Lemma applyEvent_message_ids (s : Store) (timed : string * StreamEvent) :
  List.map Message.id (messagesOf (queryClient (applyEvent cl message cid s timed)) cid)
  = List.map Message.id (messagesOf (queryClient s) cid) ++ appendedIds (snd timed).
Proof.
  destruct timed as [now [m|mid ts|c mid|mid|e]]; cbn [applyEvent snd appendedIds].
  - rewrite messages_onUserMessage. now rewrite List.map_app.
  - rewrite messages_onAssistantMessageStart. now rewrite List.map_app.
  - rewrite messages_onContent, patchContent_ids. now rewrite List.app_nil_r.
  - rewrite messages_onEnd, finalize_ids. now rewrite List.app_nil_r.
  - now rewrite List.app_nil_r.
Qed.

(** The events of a stream act on one conversation only. *)
Lemma applyEvents_frame (events : list (string * StreamEvent))
  (s : Store) :
  let final := applyEvents cl message cid events s in
  currentConversationId (state final) = currentConversationId (state s)
  /\ List.map Conversation.id (conversationsOf (queryClient final))
     = List.map Conversation.id (conversationsOf (queryClient s))
  /\ (forall (i : nat) (conv : Conversation.t),
        conversationsOf (queryClient s) !! i = Some conv ->
        Conversation.id conv <> cid ->
        conversationsOf (queryClient final) !! i = Some conv)
  /\ (forall other, other <> cid ->
        messagesData (queryClient final) !! other = messagesData (queryClient s) !! other).
Proof.
  unfold applyEvents. revert s.
  induction events as [|timed events IH]; intros s; simpl.
  - repeat split; auto.
  - destruct (IH (applyEvent cl message cid s timed)) as [H1 [H2 [H3 H4]]].
    split; [|split; [|split]].
    + rewrite H1. apply applyEvent_selection.
    + rewrite H2. apply applyEvent_conversation_ids.
    + intros i conv Hi Hne. apply H3; [|exact Hne].
      now apply applyEvent_other_conversations.
    + intros other Hne. rewrite H4 by exact Hne. now apply applyEvent_other_messages.
Qed.

(** X6: while the events of a stream are applied for a conversation,
    whatever they are, the selection stays, the conversation list keeps its
    ids in their order, every conversation with another id stays exactly as
    it is, and the message lists of the other conversations are not
    touched. *)
Theorem X6_events_stay_within_the_conversation (events : list (string * StreamEvent))
  (s : Store) :
  let final := applyEvents cl message cid events s in
  currentConversationId (state final) = currentConversationId (state s)
  /\ List.map Conversation.id (conversationsOf (queryClient final))
     = List.map Conversation.id (conversationsOf (queryClient s))
  /\ (forall (i : nat) (conv : Conversation.t),
        conversationsOf (queryClient s) !! i = Some conv ->
        Conversation.id conv <> cid ->
        conversationsOf (queryClient final) !! i = Some conv)
  /\ (forall other, other <> cid ->
        messagesData (queryClient final) !! other = messagesData (queryClient s) !! other).
Proof. apply applyEvents_frame. Qed.

(** X7: the message list of the conversation only grows at its tail: after
    any events its ids are the ids it had, in their order, followed by the
    ids of the user messages and started replies among the events, in the
    order of arrival.  Content, end and error events add and remove
    nothing. *)
Theorem X7_messages_are_only_appended (events : list (string * StreamEvent)) (s : Store) :
  List.map Message.id (messagesOf (queryClient (applyEvents cl message cid events s)) cid)
  = List.map Message.id (messagesOf (queryClient s) cid)
    ++ List.flat_map (fun timed => appendedIds (snd timed)) events.
Proof.
  unfold applyEvents. revert s.
  induction events as [|timed events IH]; intros s; simpl.
  - now rewrite List.app_nil_r.
  - rewrite IH, applyEvent_message_ids. now rewrite <- List.app_assoc.
Qed.

End EventFacts.

Section ContentFacts.

Import ChatContext.

Lemma map_pointwise {A : Type} (f g : A -> A) (l : list A) :
  (forall x, f x = g x) -> List.map f l = List.map g l.
Proof. intros H. now apply List.map_ext. Qed.

(** X8: the content patches form an algebra that does not look at the
    streaming flag.  Appending one fragment and then another is appending
    the first followed by the second; a replacement overrides any patch made
    before it; a patch commutes with clearing the streaming flag of any
    message, so a message that was finalized still takes fragments; and
    patches of different message ids commute. *)
Theorem X8_content_patches_compose (mid c1 c2 : string) (old : list Message.t) :
  patchContent mid c2 true (patchContent mid c1 true old)
  = patchContent mid (c1 +:+ c2) true old
  /\ (forall append : bool,
        patchContent mid c2 false (patchContent mid c1 append old)
        = patchContent mid c2 false old)
  /\ (forall (finished : string) (append : bool),
        finalize finished (patchContent mid c1 append old)
        = patchContent mid c1 append (finalize finished old))
  /\ (forall (other : string) (a1 a2 : bool),
        other <> mid ->
        patchContent mid c1 a1 (patchContent other c2 a2 old)
        = patchContent other c2 a2 (patchContent mid c1 a1 old)).
Proof.
  unfold patchContent, finalize. split; [|split; [|split]].
  - rewrite List.map_map. apply map_pointwise. intros msg.
    destruct (String.eqb (Message.id msg) mid) eqn:E; simpl; rewrite E; [|reflexivity].
    unfold Message.withContent. simpl. now rewrite append_assoc.
  - intros append. rewrite List.map_map. apply map_pointwise. intros msg.
    destruct (String.eqb (Message.id msg) mid) eqn:E; simpl; now rewrite E.
  - intros finished append. rewrite !List.map_map. apply map_pointwise. intros msg.
    destruct (String.eqb (Message.id msg) mid) eqn:E;
      destruct (String.eqb (Message.id msg) finished) eqn:F; simpl;
      rewrite ?E, ?F; reflexivity.
  - intros other a1 a2 Hne. rewrite !List.map_map. apply map_pointwise. intros msg.
    destruct (String.eqb (Message.id msg) mid) eqn:E;
      destruct (String.eqb (Message.id msg) other) eqn:F; simpl;
      rewrite ?E, ?F; try reflexivity.
    apply String.eqb_eq in E, F. congruence.
Qed.

Variable cl : Render.
Variable message : Utf16.text.
Variable cid : string.

(** Fragments for [mid] applied to a list that ends with a message [mid]:
    the fragments are added to that message, in order. *)
Lemma fragments_on_last (mid : string) (fragments : list string)
  (l : list Message.t) (m : Message.t) :
  Message.id m = mid ->
  foldl (fun acc f => patchContent mid f true acc) (l ++ [m]) fragments
  = foldl (fun acc f => patchContent mid f true acc) l fragments
    ++ [Message.withContent m (Message.content m +:+ JS.concat fragments)].
Proof.
  intros Hid. revert l m Hid.
  induction fragments as [|f fragments IH]; intros l m Hid.
  - simpl. rewrite append_empty_r. now destruct m.
  - cbn [foldl]. unfold patchContent at 2. rewrite List.map_app. simpl.
    rewrite Hid, String.eqb_refl.
    fold (patchContent mid f true l).
    rewrite IH by exact Hid. f_equal. f_equal.
    unfold Message.withContent. simpl. f_equal.
    change (JS.concat (f :: fragments)) with (f +:+ JS.concat fragments).
    now rewrite append_assoc.
Qed.

Lemma fragments_keep_length (mid : string) (fragments : list string) (l : list Message.t) :
  length (foldl (fun acc f => patchContent mid f true acc) l fragments) = length l.
Proof.
  revert l. induction fragments as [|f fragments IH]; intros l; [reflexivity|].
  cbn [foldl]. rewrite IH. apply List.length_map.
Qed.

Lemma fragments_on_others (mid : string) (fragments : list string) (l : list Message.t) :
  (forall m, In m l -> Message.id m <> mid) ->
  foldl (fun acc f => patchContent mid f true acc) l fragments = l.
Proof.
  intros H. induction fragments as [|f fragments IH]; [reflexivity|].
  cbn [foldl].
  replace (patchContent mid f true l) with l; [exact IH|].
  symmetry. apply map_id_on. intros m Hm.
  destruct (String.eqb_spec (Message.id m) mid) as [E|_]; [|reflexivity].
  now apply H in Hm.
Qed.

Lemma messages_contentEvents (mid : string) (fragments : list (string * string)) (s : Store) :
  messagesOf (queryClient
    (foldl (applyEvent cl message cid) s
       (List.map (fun tf => (fst tf, ContentEvent (snd tf) mid)) fragments))) cid
  = foldl (fun acc f => patchContent mid f true acc) (messagesOf (queryClient s) cid)
      (List.map snd fragments).
Proof.
  revert s. induction fragments as [|[t f] fragments IH]; intros s; [reflexivity|].
  simpl. rewrite IH. now rewrite messages_onContent.
Qed.

(** X9: a reply that is started and then receives any number of content
    fragments sits at the tail of the message list, after as many messages as
    were there, with the fragments joined in their order of arrival as its
    content and the streaming flag still set.  When no earlier message has
    the id of the reply, the earlier messages are exactly as they were. *)
Theorem X9_fragments_accumulate_in_order (start mid ts : string)
  (fragments : list (string * string)) (s : Store) :
  let final := applyEvents cl message cid (fragmentEvents start mid ts fragments) s in
  let reply :=
    {| Message.id := mid; Message.role := RoleAssistant;
       Message.content := JS.concat (List.map snd fragments);
       Message.timestamp := ts; Message.isStreaming := Some true |} in
  (exists earlier,
     messagesOf (queryClient final) cid = earlier ++ [reply]
     /\ length earlier = length (messagesOf (queryClient s) cid))
  /\ ((forall m, In m (messagesOf (queryClient s) cid) -> Message.id m <> mid) ->
      messagesOf (queryClient final) cid = messagesOf (queryClient s) cid ++ [reply]).
Proof.
  intros final reply.
  assert (messagesOf (queryClient final) cid
          = foldl (fun acc f => patchContent mid f true acc)
              (messagesOf (queryClient s) cid) (List.map snd fragments) ++ [reply]) as E.
  { subst final. unfold applyEvents, fragmentEvents. cbn [foldl].
    rewrite messages_contentEvents. cbn [applyEvent].
    rewrite messages_onAssistantMessageStart.
    rewrite fragments_on_last by reflexivity. reflexivity. }
  split.
  - eexists. split; [exact E | apply fragments_keep_length].
  - intros Hfresh. rewrite E. now rewrite fragments_on_others.
Qed.

End ContentFacts.

Section ConversationActions.

Import ChatContext.

Lemma filter_other_ids (cid : string) (convs : list Conversation.t) :
  (forall conv, In conv convs -> Conversation.id conv <> cid) ->
  List.filter (fun conv => negb (String.eqb (Conversation.id conv) cid)) convs = convs.
Proof.
  induction convs as [|c convs IH]; intros H; [reflexivity|].
  simpl. destruct (String.eqb_spec (Conversation.id c) cid) as [E|_].
  - exfalso. apply (H c); [now left | exact E].
  - simpl. f_equal. apply IH. intros conv Hin. apply H. now right.
Qed.

Lemma filter_filter_ids (a b : string) (convs : list Conversation.t) :
  List.filter (fun conv => negb (String.eqb (Conversation.id conv) a))
    (List.filter (fun conv => negb (String.eqb (Conversation.id conv) b)) convs)
  = List.filter (fun conv => negb (String.eqb (Conversation.id conv) b))
      (List.filter (fun conv => negb (String.eqb (Conversation.id conv) a)) convs).
Proof.
  induction convs as [|c convs IH]; [reflexivity|].
  simpl. destruct (String.eqb (Conversation.id c) a) eqn:A;
    destruct (String.eqb (Conversation.id c) b) eqn:B; simpl; rewrite ?A, ?B; simpl;
    now rewrite ?IH.
Qed.

Lemma filter_twice_ids (a : string) (convs : list Conversation.t) :
  List.filter (fun conv => negb (String.eqb (Conversation.id conv) a))
    (List.filter (fun conv => negb (String.eqb (Conversation.id conv) a)) convs)
  = List.filter (fun conv => negb (String.eqb (Conversation.id conv) a)) convs.
Proof.
  apply filter_other_ids. intros conv. apply filter_none_left.
Qed.

(** X10: creating a conversation puts it at the head of the list, before
    the conversations that were there, gives it an empty message list,
    selects it and leaves the message lists of the others alone; the render
    of the new store shows it as the current conversation.  When its id is
    new to the cache, deleting it again gives back the conversation list and
    the message lists there were before. *)
Theorem X10_create_then_delete (u : option string) (result : Conversation.t) (s : Store) :
  let s' := createNewConversation result s in
  conversationsOf (queryClient s') = result :: conversationsOf (queryClient s)
  /\ messagesData (queryClient s') !! Conversation.id result = Some []
  /\ currentConversationId (state s') = Some (Conversation.id result)
  /\ (forall other, other <> Conversation.id result ->
        messagesData (queryClient s') !! other = messagesData (queryClient s) !! other)
  /\ (Conversation.id result <> "" -> currentConversation (render u s') = Some result)
  /\ ((forall conv, In conv (conversationsOf (queryClient s)) ->
         Conversation.id conv <> Conversation.id result) ->
      messagesData (queryClient s) !! Conversation.id result = None ->
      conversationsOf (deleteConversationSuccess (Conversation.id result) (queryClient s'))
      = conversationsOf (queryClient s)
      /\ messagesData (deleteConversationSuccess (Conversation.id result) (queryClient s'))
         = messagesData (queryClient s)).
Proof.
  intros s'. subst s'. unfold createNewConversation, createConversationSuccess.
  split; [reflexivity|]. split; [apply lookup_insert_eq|]. split; [reflexivity|].
  split; [intros other Hne; simpl; now apply lookup_insert_ne|]. split.
  - intros Hid. unfold currentConversation, render. simpl.
    destruct (String.eqb_spec (Conversation.id result) ""); [contradiction|]. simpl.
    now rewrite String.eqb_refl.
  - intros Hfresh Hnone. split.
    + unfold deleteConversationSuccess, removeMessages, setConversations, setMessages,
        conversationsOf. simpl. rewrite String.eqb_refl. simpl.
      now apply filter_other_ids.
    + unfold deleteConversationSuccess, removeMessages, setConversations, setMessages.
      simpl. now apply delete_insert_id.
Qed.

(** X11: deleting is idempotent and deletions commute.  On the cache,
    deleting a conversation twice is deleting it once, and two conversations
    can be deleted in either order.  On the store, a second accepted delete
    of the same conversation, issued from the render that follows the first,
    changes nothing: the selection moved away from the deleted conversation
    and stays where it is. *)
Theorem X11_delete_is_idempotent_and_commutes (u : option string) (a b : string)
  (s : Store) :
  deleteConversationSuccess a (deleteConversationSuccess a (queryClient s))
  = deleteConversationSuccess a (queryClient s)
  /\ deleteConversationSuccess a (deleteConversationSuccess b (queryClient s))
     = deleteConversationSuccess b (deleteConversationSuccess a (queryClient s))
  /\ (let s' := deleteConversation (render u s) ChatAPI.Resolved a s in
      deleteConversation (render u s') ChatAPI.Resolved a s' = s').
Proof.
  split; [|split].
  - unfold deleteConversationSuccess, removeMessages, setConversations. simpl.
    f_equal; [now rewrite filter_twice_ids | apply delete_delete_eq].
  - unfold deleteConversationSuccess, removeMessages, setConversations. simpl.
    f_equal; [now rewrite filter_filter_ids | apply delete_delete].
  - intros s'.
    assert (queryClient s' = deleteConversationSuccess a (queryClient s)) as Hqc.
    { subst s'. unfold deleteConversation. simpl.
      destruct (currentConversationId (state s)) as [sel|]; [|reflexivity].
      destruct (String.eqb sel a); reflexivity. }
    assert (currentConversationId (state s') <> Some a) as Hsel.
    { subst s'. unfold deleteConversation, updateCache, setState. simpl.
      destruct (currentConversationId (state s)) as [sel|] eqn:E; simpl.
      - destruct (String.eqb_spec sel a) as [->|Hne]; simpl.
        + destruct (List.filter _ _) as [|first rest] eqn:F; [discriminate|].
          intros H. injection H as H.
          assert (In first (first :: rest)) as Hin by now left.
          rewrite <- F in Hin. now apply filter_none_left in Hin.
        + rewrite E. congruence.
      - rewrite E. discriminate. }
    destruct s' as [qc st]. simpl in *. subst qc.
    unfold deleteConversation, updateCache, setState. simpl.
    assert (deleteConversationSuccess a (deleteConversationSuccess a (queryClient s))
            = deleteConversationSuccess a (queryClient s)) as ->.
    { unfold deleteConversationSuccess, removeMessages, setConversations. simpl.
      f_equal; [now rewrite filter_twice_ids | apply delete_delete_eq]. }
    destruct (currentConversationId st) as [sel|] eqn:E; [|reflexivity].
    destruct (String.eqb_spec sel a) as [->|_]; [contradiction | reflexivity].
Qed.

End ConversationActions.

Section ClearAndSelection.

Import ChatContext.

(** X12: an accepted clear, of any conversation and whatever is selected,
    empties the message list of the conversation, resets its title to
    [New Chat] and stamps it with the clock reading, keeps the conversation
    list in place with every other conversation and every other message
    list as it was, and leaves the state cell alone.  When the cleared
    conversation is the selected one and is listed, the render that follows
    sees no message in it: a message sent from that render to the selected
    conversation, once its stream has delivered any events and then the
    end, leaves the conversation titled from the text sent; so does the end
    callback of that render on any store. *)
Theorem X12_clear_resets_the_title_rule (u : option string) (now cid : string) (s : Store) :
  let s1 := clearConversation now ChatAPI.Resolved cid s in
  messagesData (queryClient s1) !! cid = Some []
  /\ List.map Conversation.id (conversationsOf (queryClient s1))
     = List.map Conversation.id (conversationsOf (queryClient s))
  /\ state s1 = state s
  /\ (forall conv, In conv (conversationsOf (queryClient s1)) ->
        Conversation.id conv = cid ->
        Conversation.title conv = Utf16.literal "New Chat"
        /\ Conversation.messages conv = []
        /\ Conversation.updatedAt conv = now)
  /\ (forall (i : nat) (conv : Conversation.t),
        conversationsOf (queryClient s) !! i = Some conv ->
        Conversation.id conv <> cid ->
        conversationsOf (queryClient s1) !! i = Some conv)
  /\ (forall other, other <> cid ->
        messagesData (queryClient s1) !! other = messagesData (queryClient s) !! other)
  /\ (currentConversationId (state s) = Some cid ->
      cid <> "" ->
      (exists conv0, In conv0 (conversationsOf (queryClient s)) /\ Conversation.id conv0 = cid) ->
      (forall (message : Utf16.text) (mid : string) (s2 : Store) (conv : Conversation.t),
         In conv (conversationsOf (queryClient (onEnd (render u s1) message cid mid s2))) ->
         Conversation.id conv = cid ->
         Conversation.title conv = autoTitle message)
      /\ (forall (message : Utf16.text) (uid mid t : string) (x : Exchange)
            (before : list (string * StreamEvent)) (conv : Conversation.t),
            u = Some uid ->
            settled x = ChatAPI.Resolved ->
            events x = before ++ [(t, EndEvent mid)] ->
            In conv (conversationsOf
                       (queryClient (sendMessage (render u s1) x message None s1))) ->
            Conversation.id conv = cid ->
            Conversation.title conv = autoTitle message)).
Proof.
  intros s1.
  assert (conversationsOf (queryClient s1)
          = List.map (fun conv =>
              if String.eqb (Conversation.id conv) cid
              then Conversation.cleared conv now else conv)
              (conversationsOf (queryClient s))) as Hconvs by reflexivity.
  split; [apply lookup_insert_eq|].
  split; [rewrite Hconvs; apply (retarget_ids cid (fun c => Conversation.cleared c now));
          reflexivity|].
  split; [reflexivity|]. split; [|split; [|split]].
  - intros conv Hconv Hcid. rewrite Hconvs in Hconv.
    apply List.in_map_iff in Hconv as [c [Hc _]].
    destruct (String.eqb_spec (Conversation.id c) cid) as [E|E]; subst conv;
      [repeat split | contradiction].
  - intros i conv Hi Hother. rewrite Hconvs.
    now apply (retarget_others cid (fun c => Conversation.cleared c now)).
  - intros other Hother. subst s1. simpl. now apply lookup_insert_ne.
  - intros Hsel Hne [conv0 [Hin Hid]].
    assert (isFirstExchange (render u s1) cid = true) as Hfirst.
    { rewrite (isFirstExchange_render u s1 cid (Conversation.cleared conv0 now)).
      - unfold messagesOf.
        replace (messagesData (queryClient s1) !! cid) with (Some (@nil Message.t));
          [reflexivity | symmetry; apply lookup_insert_eq].
      - exact Hsel.
      - exact Hne.
      - rewrite Hconvs. apply List.in_map_iff. exists conv0. split; [|exact Hin].
        rewrite Hid, String.eqb_refl. reflexivity.
      - exact Hid. }
    assert (forall (message : Utf16.text) (mid : string) (s2 : Store) (conv : Conversation.t),
              In conv (conversationsOf (queryClient (onEnd (render u s1) message cid mid s2))) ->
              Conversation.id conv = cid ->
              Conversation.title conv = autoTitle message) as Hend.
    { intros message mid s2 conv Hconv Hcid.
      unfold onEnd in Hconv. rewrite Hfirst in Hconv.
      change (In conv (List.map (fun c =>
                if String.eqb (Conversation.id c) cid
                then Conversation.withTitle c (autoTitle message) else c)
                (conversationsOf (queryClient s2)))) in Hconv.
      apply List.in_map_iff in Hconv as [c [Hc _]].
      destruct (String.eqb_spec (Conversation.id c) cid) as [E|E]; subst conv;
        [reflexivity | contradiction]. }
    split; [exact Hend|].
    intros message uid mid t x before conv Hu Hok Hev Hconv Hcid.
    rewrite (sendMessage_to_selected (render u s1) x message uid cid s1 Hu Hsel Hne Hok)
      in Hconv.
    rewrite Hev in Hconv. unfold applyEvents in Hconv. rewrite foldl_app in Hconv.
    simpl in Hconv. now apply Hend in Hconv.
Qed.

(** The sample store: the selected conversation is cleared, and the next
    exchange titles it from the text sent. *)
Lemma X12_clear_witness :
  (forall conv,
     In conv (conversationsOf (queryClient
       (sendMessage (render (Some "uid") (clearConversation "n" ChatAPI.Resolved "c1" Samples.store))
          Samples.helloExchange (Utf16.literal "Hi again") None
          (clearConversation "n" ChatAPI.Resolved "c1" Samples.store)))) ->
     Conversation.id conv = "c1" ->
     Conversation.title conv = Utf16.literal "Hi again")
  /\ messagesData (queryClient (clearConversation "n" ChatAPI.Resolved "c1" Samples.store))
       !! "c1" = Some [].
Proof.
  pose proof (X12_clear_resets_the_title_rule (Some "uid") "n" "c1" Samples.store) as H.
  cbv zeta in H. destruct H as [H1 [_ [_ [_ [_ [_ H7]]]]]].
  split; [|exact H1].
  destruct H7 as [_ Hsend];
    [reflexivity | discriminate
     | exists (Samples.conversation "c1" "New Chat"); split; [now left | reflexivity] |].
  intros conv Hconv Hid.
  apply (Hsend (Utf16.literal "Hi again") "uid" "a1" "2024-01-02T00:00:01.400Z"
           Samples.helloExchange (removelast (events Samples.helloExchange)) conv);
    [reflexivity | reflexivity | reflexivity | exact Hconv | exact Hid].
Defined.

End ClearAndSelection.

Section SelectionInvariant.

Import ChatContext.











End SelectionInvariant.

Section RenderEffects.

Import ChatContext.

(** X14: the effect that runs after a render.  With nobody signed in it
    empties the cache (no conversation and no message list of the previous
    user remains) and drops the selection.  With a user signed in it never
    touches the cache, keeps a selection that is set, and otherwise selects
    the first listed conversation when there is one.  Running it again after
    the render that follows changes nothing more. *)
Theorem X14_effect_after_render (u : option string) (s : Store) :
  let s' := autoSelect (render u s) s in
  (u = None ->
     conversationsOf (queryClient s') = []
     /\ (forall cid, messagesData (queryClient s') !! cid = None)
     /\ currentConversationId (state s') = None)
  /\ (u <> None ->
      queryClient s' = queryClient s
      /\ (truthy (currentConversationId (state s)) = true -> s' = s)
      /\ (truthy (currentConversationId (state s)) = false ->
          currentConversationId (state s')
          = match conversationsOf (queryClient s) with
            | first :: _ => Some (Conversation.id first)
            | [] => currentConversationId (state s)
            end))
  /\ autoSelect (render u s') s' = s'.
Proof.
  intros s'. subst s'. unfold autoSelect. cbn [render user conversations renderedState].
  destruct u as [uid|].
  - split; [discriminate|]. split.
    + intros _.
      destruct (conversationsOf (queryClient s)) as [|first rest] eqn:E.
      { split; [reflexivity|]. split; [reflexivity|]. intros _. reflexivity. }
      destruct (truthy (currentConversationId (state s))) eqn:T.
      { split; [reflexivity|]. split; [reflexivity | discriminate]. }
      split; [reflexivity|]. split; [discriminate|]. intros _. reflexivity.
    + destruct (conversationsOf (queryClient s)) as [|first rest] eqn:E.
      * now rewrite E.
      * destruct (truthy (currentConversationId (state s))) eqn:T.
        -- now rewrite E, T.
        -- cbn [setState queryClient state]. rewrite E.
           destruct (truthy (currentConversationId
                       (withCurrentConversationId (Some (Conversation.id first)) (state s))));
             reflexivity.
  - split; [|split; [congruence | reflexivity]].
    intros _. split; [reflexivity|]. split; [|reflexivity].
    intros cid. apply lookup_empty.
Qed.

(** X15: after an accepted delete issued from a render, the conversation
    the next render shows as current is never the deleted one, and it is one
    of the conversations that were listed.  When the deleted conversation was
    the selected one, the next render shows the first remaining conversation,
    or none when nothing remains. *)
Theorem X15_current_conversation_after_delete (u : option string) (s : Store)
  (cid : string) :
  let s' := deleteConversation (render u s) ChatAPI.Resolved cid s in
  let remaining :=
    List.filter (fun conv => negb (String.eqb (Conversation.id conv) cid))
      (conversationsOf (queryClient s)) in
  (forall conv, currentConversation (render u s') = Some conv ->
     Conversation.id conv <> cid /\ In conv (conversationsOf (queryClient s)))
  /\ (currentConversationId (state s) = Some cid ->
      currentConversation (render u s')
      = match remaining with
        | first :: _ => if String.eqb (Conversation.id first) "" then None else Some first
        | [] => None
        end).
Proof.
  intros s' remaining.
  assert (conversations (render u s') = remaining) as Hconvs.
  { subst s'. unfold deleteConversation. cbn [render renderedState conversations].
    destruct (currentConversationId (state s)) as [sel|]; [|reflexivity].
    destruct (String.eqb sel cid); reflexivity. }
  split.
  - intros conv Hcur. unfold currentConversation in Hcur. rewrite Hconvs in Hcur.
    destruct (truthy _); [|discriminate].
    destruct (currentConversationId _) as [sel|]; [|discriminate].
    apply List.find_some in Hcur as [Hin _]. split.
    + now apply filter_none_left in Hin.
    + now apply List.filter_In in Hin as [Hin _].
  - intros Hsel. unfold currentConversation. rewrite Hconvs.
    assert (currentConversationId (renderedState (render u s'))
            = match remaining with
              | first :: _ => Some (Conversation.id first)
              | [] => None
              end) as ->.
    { subst s'. unfold deleteConversation. cbn [render renderedState conversations].
      rewrite Hsel, String.eqb_refl. reflexivity. }
    destruct remaining as [|first rest]; [reflexivity|].
    unfold truthy. destruct (String.eqb (Conversation.id first) ""); [reflexivity|].
    simpl. now rewrite String.eqb_refl.
Qed.

Lemma error_applyEvents (cl : Render) (message : Utf16.text) (cid : string)
  (events : list (string * StreamEvent)) (s : Store) :
  error (state (applyEvents cl message cid events s))
  = if List.existsb (fun timed => isErrorEvent (snd timed)) events
    then Some "Failed to send message. Please try again."
    else error (state s).
Proof.
  unfold applyEvents. revert s.
  induction events as [|[now ev] events IH]; intros s; [reflexivity|].
  cbn [foldl List.existsb snd]. rewrite IH.
  destruct (List.existsb _ events); [now rewrite orb_true_r|].
  rewrite orb_false_r.
  destruct ev as [m|mid ts|c mid|mid|e]; simpl; try reflexivity.
  unfold onEnd. destruct (isFirstExchange cl cid); reflexivity.
Qed.

(** X16: what [sendMessage] leaves in the error of the state.  Signed
    out, it is the request to log in.  Signed in, the error is cleared
    exactly when a target conversation was there or could be created, the
    stream resolved, and no error event arrived; in every other case it is
    the one fixed failure text, whatever the backend reported. *)
Theorem X16_error_after_sendMessage (cl : Render) (x : Exchange) (message : Utf16.text)
  (conversationId : option string) (s : Store) :
  let wanted := orElse conversationId (currentConversationId (renderedState cl)) in
  let available := truthy wanted || bool_decide (is_Some (created x)) in
  let resolved :=
    match settled x with
    | ChatAPI.Resolved => true
    | ChatAPI.Rejected _ => false
    end in
  let clean := negb (List.existsb (fun timed => isErrorEvent (snd timed)) (events x)) in
  error (state (sendMessage cl x message conversationId s))
  = match user cl with
    | None => Some "You must be logged in to send messages"
    | Some _ =>
        if available && resolved && clean then None
        else Some "Failed to send message. Please try again."
    end.
Proof.
  intros wanted available resolved clean. subst available resolved clean.
  unfold sendMessage. fold wanted. destruct (user cl); [|reflexivity].
  assert (forall cid s2,
            error (state s2) = None ->
            error (state
              (match settled x with
               | ChatAPI.Resolved => applyEvents cl message cid (events x) s2
               | ChatAPI.Rejected _ =>
                   sendMessageFailed (applyEvents cl message cid (events x) s2)
               end))
            = if match settled x with
                 | ChatAPI.Resolved => true
                 | ChatAPI.Rejected _ => false
                 end
                 && negb (List.existsb (fun timed => isErrorEvent (snd timed)) (events x))
              then None else Some "Failed to send message. Please try again.") as Hrun.
  { intros cid s2 H2. destruct (settled x); [|reflexivity].
    rewrite error_applyEvents, H2. simpl.
    destruct (List.existsb _ (events x)); reflexivity. }
  destruct (truthy wanted) eqn:T.
  - destruct wanted as [cid|]; [|discriminate]. simpl. now rewrite Hrun.
  - destruct (created x) as [conv|]; simpl; [now rewrite Hrun | reflexivity].
Qed.

End RenderEffects.

Section NewConversationTitle.

Import ChatContext.

Lemma retarget_titles (cid : string) (f : Conversation.t -> Conversation.t)
  (convs : list Conversation.t) :
  (forall conv, Conversation.title (f conv) = Conversation.title conv) ->
  List.map Conversation.title
    (List.map (fun conv => if String.eqb (Conversation.id conv) cid then f conv else conv) convs)
  = List.map Conversation.title convs.
Proof.
  intros Hf. rewrite List.map_map. apply List.map_ext. intros conv.
  destruct (String.eqb (Conversation.id conv) cid); [apply Hf | reflexivity].
Qed.

(** Without the first-exchange test passing, no event changes a title. *)
Lemma titles_applyEvents (cl : Render) (message : Utf16.text) (cid : string)
  (events : list (string * StreamEvent)) (s : Store) :
  isFirstExchange cl cid = false ->
  List.map Conversation.title
    (conversationsOf (queryClient (applyEvents cl message cid events s)))
  = List.map Conversation.title (conversationsOf (queryClient s)).
Proof.
  intros Hfirst. unfold applyEvents. revert s.
  induction events as [|[now ev] events IH]; intros s; [reflexivity|].
  cbn [foldl]. rewrite IH.
  destruct ev as [m|mid ts|c mid|mid|e]; simpl; try reflexivity.
  - apply (retarget_titles cid (fun conv => Conversation.withUpdatedAt conv now)).
    reflexivity.
  - apply (retarget_titles cid (fun conv => Conversation.withUpdatedAt conv now)).
    reflexivity.
  - unfold onEnd. now rewrite Hfirst.
Qed.

Lemma isFirstExchange_unlisted (cl : Render) (cid : string) :
  (forall conv, In conv (conversations cl) -> Conversation.id conv <> cid) ->
  isFirstExchange cl cid = false.
Proof.
  intros H. unfold isFirstExchange.
  destruct (List.find _ (conversations cl)) as [found|] eqn:E; [|reflexivity].
  apply List.find_some in E as [Hin Hid]. apply String.eqb_eq in Hid.
  now apply H in Hin.
Qed.

(** X17: a send made while no conversation is selected creates a
    conversation and streams into it, and that exchange does not title it:
    the render that created [sendMessage] does not list the new conversation,
    so the end event skips the title update.  Whatever the events and however
    the stream settles, the new conversation is at the head of the list with
    the title it was created with, every other title is as before, and the
    new conversation is the selected one. *)
Theorem X17_created_conversation_keeps_its_title (cl : Render) (x : Exchange)
  (message : Utf16.text) (uid : string) (conv : Conversation.t) (s : Store) :
  user cl = Some uid ->
  truthy (currentConversationId (renderedState cl)) = false ->
  created x = Some conv ->
  (forall listed, In listed (conversations cl) ->
                  Conversation.id listed <> Conversation.id conv) ->
  let final := sendMessage cl x message None s in
  List.map Conversation.title (conversationsOf (queryClient final))
  = Conversation.title conv :: List.map Conversation.title (conversationsOf (queryClient s))
  /\ currentConversationId (state final) = Some (Conversation.id conv).
Proof.
  intros Hu Hsel Hcreated Hfresh final. subst final.
  unfold sendMessage, orElse. rewrite Hu. cbn [truthy]. rewrite Hsel, Hcreated. simpl.
  pose proof (isFirstExchange_unlisted cl (Conversation.id conv) Hfresh) as Hfirst.
  set (s2 := createNewConversation conv (setState (withError None) s)).
  pose proof (titles_applyEvents cl message (Conversation.id conv) (events x) s2 Hfirst)
    as Htitles.
  destruct (applyEvents_frame cl message (Conversation.id conv) (events x) s2)
    as [Hselection _].
  destruct (settled x); split; try exact Htitles; exact Hselection.
Qed.

(** The first message of a session: nothing is cached and nothing is
    selected; the conversation the backend creates keeps the title
    [New Chat] after the reply has ended. *)
Lemma X17_created_conversation_witness :
  let empty := {| queryClient := {| conversationsData := None; messagesData := ∅ |};
                  state := Samples.idle None |} in
  let um := {| Message.id := "u1"; Message.role := RoleUser; Message.content := "Hi";
               Message.timestamp := "t1"; Message.isStreaming := None |} in
  let x := {| created := Some (Samples.conversation "c9" "New Chat");
              events := twoFragmentExchange um "a1" "t2" "Hel" "lo" "n1" "n2" "n3" "n4" "n5";
              settled := ChatAPI.Resolved |} in
  let final := sendMessage (render (Some "uid") empty) x (Utf16.literal "Hi") None empty in
  List.map Conversation.title (conversationsOf (queryClient final)) = [Utf16.literal "New Chat"]
  /\ currentConversationId (state final) = Some "c9".
Proof.
  intros empty um x.
  exact (X17_created_conversation_keeps_its_title (render (Some "uid") empty) x
           (Utf16.literal "Hi") "uid"
           (Samples.conversation "c9" "New Chat") empty
           eq_refl eq_refl eq_refl (fun listed (H : In listed []) => False_ind _ H)).
Defined.

End NewConversationTitle.

(** * Properties of the components *)

Section InputFacts.

Import ChatContext Components.

Lemma trimStart_split (s : Utf16.text) :
  exists pre,
    s = pre ++ Utf16.trimStart s /\ List.forallb Utf16.isWhiteSpace pre = true.
Proof.
  induction s as [|c rest [pre [E W]]]; [now exists []|].
  simpl. destruct (Utf16.isWhiteSpace c) eqn:Hc.
  - exists (c :: pre). simpl. rewrite Hc, W. split; [now f_equal | reflexivity].
  - now exists [].
Qed.

Lemma trimEnd_split (s : Utf16.text) :
  exists post,
    s = Utf16.trimEnd s ++ post /\ List.forallb Utf16.isWhiteSpace post = true.
Proof.
  induction s as [|c rest [post [E W]]]; [now exists []|].
  simpl. destruct (Utf16.trimEnd rest) as [|d kept].
  - simpl in E. subst post. destruct (Utf16.isWhiteSpace c) eqn:Hc.
    + exists (c :: rest). simpl. now rewrite Hc, W.
    + now exists rest.
  - exists post. split; [|exact W]. simpl. f_equal. exact E.
Qed.

Lemma trimStart_head (s : Utf16.text) (c : N) (rest : Utf16.text) :
  Utf16.trimStart s = c :: rest -> Utf16.isWhiteSpace c = false.
Proof.
  induction s as [|d s' IH]; [discriminate|].
  simpl. destruct (Utf16.isWhiteSpace d) eqn:Hd; [exact IH|].
  intros H. injection H as -> _. exact Hd.
Qed.

Lemma trimEnd_keeps_head (c : N) (rest : Utf16.text) :
  Utf16.isWhiteSpace c = false -> exists kept, Utf16.trimEnd (c :: rest) = c :: kept.
Proof.
  intros Hc. simpl. destruct (Utf16.trimEnd rest) as [|d kept].
  - rewrite Hc. now exists [].
  - now exists (d :: kept).
Qed.

Lemma trimEnd_cons (c : N) (s : Utf16.text) :
  Utf16.trimEnd s <> [] -> Utf16.trimEnd (c :: s) = c :: Utf16.trimEnd s.
Proof. simpl. destruct (Utf16.trimEnd s); [contradiction | reflexivity]. Qed.

Lemma trimEnd_last (s init : Utf16.text) (c : N) :
  Utf16.trimEnd s = init ++ [c] -> Utf16.isWhiteSpace c = false.
Proof.
  revert init. induction s as [|a rest IH]; intros init.
  - destruct init; discriminate.
  - simpl. destruct (Utf16.trimEnd rest) as [|d kept] eqn:E.
    + destruct (Utf16.isWhiteSpace a) eqn:Ha.
      * destruct init; discriminate.
      * destruct init as [|i [|j init]]; try discriminate.
        intros H. injection H as ->. exact Ha.
    + destruct init as [|i init]; [discriminate|].
      intros H. injection H as _ H. exact (IH init H).
Qed.

Lemma trimEnd_trimEnd (s : Utf16.text) : Utf16.trimEnd (Utf16.trimEnd s) = Utf16.trimEnd s.
Proof.
  induction s as [|c rest IH]; [reflexivity|].
  simpl. destruct (Utf16.trimEnd rest) as [|d kept] eqn:E.
  - destruct (Utf16.isWhiteSpace c) eqn:Hc; [reflexivity|]. simpl. now rewrite Hc.
  - change (Utf16.trimEnd (c :: d :: kept))
      with (match Utf16.trimEnd (d :: kept) with
            | [] => if Utf16.isWhiteSpace c then [] else [c]
            | kept' => c :: kept'
            end).
    now rewrite IH.
Qed.

Lemma trim_head (s : Utf16.text) (c : N) (rest : Utf16.text) :
  Utf16.trim s = c :: rest -> Utf16.isWhiteSpace c = false.
Proof.
  unfold Utf16.trim. destruct (Utf16.trimStart s) as [|d kept] eqn:E; [discriminate|].
  pose proof (trimStart_head s d kept E) as Hd.
  destruct (trimEnd_keeps_head d kept Hd) as [kept' ->].
  intros H. injection H as -> _. exact Hd.
Qed.

Lemma trimStart_trim (s : Utf16.text) : Utf16.trimStart (Utf16.trim s) = Utf16.trim s.
Proof.
  destruct (Utf16.trim s) as [|c rest] eqn:E; [reflexivity|].
  simpl. now rewrite (trim_head s c rest E).
Qed.

Lemma trim_trim (s : Utf16.text) : Utf16.trim (Utf16.trim s) = Utf16.trim s.
Proof.
  unfold Utf16.trim at 1. rewrite trimStart_trim. unfold Utf16.trim. apply trimEnd_trimEnd.
Qed.

Lemma trimStart_spaces (s : Utf16.text) :
  List.forallb Utf16.isWhiteSpace s = true -> Utf16.trimStart s = [].
Proof.
  induction s as [|c rest IH]; intros H; [reflexivity|].
  simpl in *. apply andb_prop in H as [Hc Hrest]. rewrite Hc. now apply IH.
Qed.

(** X18: what reaches [sendMessage] from the input box.  A click on send
    (or Enter) passes on the trimmed text, and only when that text is not
    empty and no reply is streaming; the check [ChatInterface] makes again
    never stops such a text.  The text passed on is the value without a run
    of white space at its start and one at its end, and itself begins and
    ends with a code unit that is not white space, so it is its own trim.  A
    value made of white space only sends nothing.  White space is that of
    ECMAScript on UTF-16 code units: the ideographic space, the line
    separator or the byte order mark are trimmed as the space is, a letter
    is not. *)
Theorem X18_input_sends_trimmed_text (cl : Render) (value : Utf16.text) :
  sendFromInput cl value
  = (if Utf16.nonEmpty (Utf16.trim value) && negb (isStreaming (renderedState cl))
     then Some (Utf16.trim value) else None)
  /\ (exists pre post,
        value = pre ++ Utf16.trim value ++ post
        /\ List.forallb Utf16.isWhiteSpace pre = true
        /\ List.forallb Utf16.isWhiteSpace post = true)
  /\ (forall c rest, Utf16.trim value = c :: rest -> Utf16.isWhiteSpace c = false)
  /\ (forall init c, Utf16.trim value = init ++ [c] -> Utf16.isWhiteSpace c = false)
  /\ Utf16.trim (Utf16.trim value) = Utf16.trim value
  /\ (List.forallb Utf16.isWhiteSpace value = true -> sendFromInput cl value = None)
  /\ (forall text : Utf16.text,
        Utf16.trim ([12288; 8232; 65279; 5760; 8195; 160; 9] ++ [104; 105] ++ text
                    ++ [946; 32; 8239; 8287; 8233; 13; 10])%N
        = ([104; 105] ++ text ++ [946])%N).
Proof.
  assert (sendFromInput cl value
          = (if Utf16.nonEmpty (Utf16.trim value) && negb (isStreaming (renderedState cl))
             then Some (Utf16.trim value) else None)) as E.
  { unfold sendFromInput, handleSendClick, handleSendMessage.
    destruct (Utf16.nonEmpty (Utf16.trim value)) eqn:N; [|reflexivity].
    destruct (isStreaming (renderedState cl)); [reflexivity|]. simpl.
    now rewrite trim_trim, N. }
  split; [exact E|]. split; [|split; [|split; [|split; [|split]]]].
  - destruct (trimStart_split value) as [pre [Epre Wpre]].
    destruct (trimEnd_split (Utf16.trimStart value)) as [post [Epost Wpost]].
    exists pre, post. split; [|now split].
    unfold Utf16.trim. now rewrite <- Epost.
  - apply trim_head.
  - intros init c. unfold Utf16.trim. apply trimEnd_last.
  - apply trim_trim.
  - intros Hspaces. rewrite E. unfold Utf16.trim. now rewrite trimStart_spaces.
  - intros text. unfold Utf16.trim.
    assert (Utf16.trimStart
              ([12288; 8232; 65279; 5760; 8195; 160; 9] ++ [104; 105] ++ text
               ++ [946; 32; 8239; 8287; 8233; 13; 10])%N
            = (104 :: 105 :: text ++ [946; 32; 8239; 8287; 8233; 13; 10])%N) as ->
      by reflexivity.
    assert (Utf16.trimEnd (text ++ [946; 32; 8239; 8287; 8233; 13; 10])%N
            = text ++ [946%N]) as Htail.
    { clear. induction text as [|c text IH]; [reflexivity|].
      rewrite <- List.app_comm_cons, trimEnd_cons; rewrite IH; [reflexivity|].
      destruct text; discriminate. }
    assert (text ++ [946%N] <> []) as Hne by (destruct text; discriminate).
    rewrite trimEnd_cons, trimEnd_cons, Htail; [reflexivity | now rewrite Htail |].
    rewrite trimEnd_cons, Htail; [discriminate | now rewrite Htail].
Qed.

Lemma drawsCursor_idle (u : option string) (s : Store) (msg : Message.t) :
  isStreaming (state s) = false -> drawsCursor (render u s) msg = false.
Proof. intros H. unfold drawsCursor, bubbleIsStreaming. simpl. now rewrite H. Qed.

(** X19: the typing cursor.  After the start event of a reply the cursor
    is drawn on exactly the assistant messages with the id of that reply, the
    started reply among them.  After an end event, an error event or a failed
    send it is drawn on no message, also when a started reply was never
    ended: an error after a start leaves the reply in the cache with its
    streaming flag set, and still no cursor is drawn. *)
Theorem X19_typing_cursor (u : option string) (cl : Render) (message : Utf16.text)
  (cid : string) (s : Store) :
  (forall now mid ts msg,
     drawsCursor (render u (onAssistantMessageStart cid now mid ts s)) msg = true
     <-> (Message.id msg = mid /\ Message.role msg = RoleAssistant))
  /\ (forall mid msg, drawsCursor (render u (onEnd cl message cid mid s)) msg = false)
  /\ (forall e msg, drawsCursor (render u (onError e s)) msg = false)
  /\ (forall msg, drawsCursor (render u (sendMessageFailed s)) msg = false)
  /\ (forall now mid ts e,
        let s' := onError e (onAssistantMessageStart cid now mid ts s) in
        (exists earlier,
           messagesOf (queryClient s') cid
           = earlier ++ [{| Message.id := mid; Message.role := RoleAssistant;
                            Message.content := ""; Message.timestamp := ts;
                            Message.isStreaming := Some true |}])
        /\ forall msg, drawsCursor (render u s') msg = false).
Proof.
  split; [|split; [|split; [|split]]].
  - intros now mid ts msg. unfold drawsCursor, bubbleIsStreaming. simpl.
    destruct (Message.role msg); rewrite ?andb_true_r, ?andb_false_r.
    + split; [discriminate | intros [_ H]; discriminate].
    + rewrite bool_decide_eq_true. split.
      * intros H. injection H as ->. now split.
      * intros [-> _]. reflexivity.
  - intros mid msg. apply drawsCursor_idle. apply state_onEnd.
  - intros e msg. now apply drawsCursor_idle.
  - intros msg. now apply drawsCursor_idle.
  - intros now mid ts e s'. split; [|intros msg; now apply drawsCursor_idle].
    exists (messagesOf (queryClient s) cid). subst s'.
    change (queryClient (onError e (onAssistantMessageStart cid now mid ts s)))
      with (queryClient (onAssistantMessageStart cid now mid ts s)).
    apply messages_onAssistantMessageStart.
Qed.

End InputFacts.

Section SidebarFacts.

Import Sidebar.

Local Open Scope Z_scope.

Lemma days_between (date now n : Z) :
  n * msPerDay <= now - date < (n + 1) * msPerDay -> (now - date) / msPerDay = n.
Proof.
  intros H. symmetry. apply (Z.div_unique_pos _ _ _ (now - date - n * msPerDay)).
  - unfold msPerDay in *. lia.
  - unfold msPerDay in *. lia.
Qed.

(** X20: the date label of a conversation.  An instant less than 24 hours
    before now is labelled [Today], also when it falls on the previous
    calendar day; from 24 to 48 hours before, [Yesterday]; from 2 to 6 whole
    days before, the number of whole days followed by [days ago]; from 7 days
    on, the locale's date.  An instant after now, by however little, is
    labelled with a negative number of days. *)
Theorem X20_date_labels (toLocaleDateString : Z -> string) (date now : Z) :
  (0 <= now - date < msPerDay -> formatDate toLocaleDateString date now = "Today")
  /\ (msPerDay <= now - date < 2 * msPerDay ->
      formatDate toLocaleDateString date now = "Yesterday")
  /\ (forall n, 2 <= n < 7 ->
        n * msPerDay <= now - date < (n + 1) * msPerDay ->
        formatDate toLocaleDateString date now = pretty n +:+ " days ago")
  /\ (7 * msPerDay <= now - date ->
      formatDate toLocaleDateString date now = toLocaleDateString date)
  /\ (now < date ->
      (now - date) / msPerDay < 0
      /\ formatDate toLocaleDateString date now
         = pretty ((now - date) / msPerDay) +:+ " days ago").
Proof.
  unfold formatDate. split; [|split; [|split; [|split]]].
  - intros H. rewrite (days_between date now 0) by lia. reflexivity.
  - intros H. rewrite (days_between date now 1) by lia. reflexivity.
  - intros n Hn H. rewrite (days_between date now n) by exact H.
    destruct (Z.eqb_spec n 0); [lia|]. destruct (Z.eqb_spec n 1); [lia|].
    destruct (Z.ltb_spec n 7); [reflexivity | lia].
  - intros H.
    assert (7 <= (now - date) / msPerDay) as Hd.
    { apply Z.div_le_lower_bound; unfold msPerDay in *; lia. }
    destruct (Z.eqb_spec ((now - date) / msPerDay) 0); [lia|].
    destruct (Z.eqb_spec ((now - date) / msPerDay) 1); [lia|].
    destruct (Z.ltb_spec ((now - date) / msPerDay) 7); [lia | reflexivity].
  - intros H.
    assert ((now - date) / msPerDay < 0) as Hd.
    { apply Z.div_lt_upper_bound; unfold msPerDay; lia. }
    split; [exact Hd|].
    destruct (Z.eqb_spec ((now - date) / msPerDay) 0); [lia|].
    destruct (Z.eqb_spec ((now - date) / msPerDay) 1); [lia|].
    destruct (Z.ltb_spec ((now - date) / msPerDay) 7); [reflexivity | lia].
Qed.

End SidebarFacts.

Section RetryFacts.

Import QueryClientConfig.

Lemma includes_prefix (s needle : string) :
  String.prefix needle s = true -> includes s needle = true.
Proof. intros H. destruct s; cbn [includes]; now rewrite H. Qed.

Lemma includes_infix (pre needle post : string) :
  includes (pre +:+ needle +:+ post) needle = true.
Proof.
  induction pre as [|c pre IH].
  - change (EmptyString +:+ needle +:+ post) with (needle +:+ post).
    apply includes_prefix. apply prefix_append.
  - rewrite append_cons. cbn [includes]. rewrite IH. apply orb_true_r.
Qed.

(** X21: the retry policy of the query client.  An error whose code
    contains [auth/] anywhere is never retried, at any failure count, by a
    query or by a mutation.  Any other error is retried by a query while
    fewer than 3 failures were counted and by a mutation while fewer than 2
    were, so a refusal is final for every later count and a mutation is never
    retried where a query would not be. *)
Theorem X21_retry_policy (code : option string) (failureCount : nat) :
  (forall pre post,
     queriesRetry failureCount (Some (pre +:+ "auth/" +:+ post)) = false
     /\ mutationsRetry failureCount (Some (pre +:+ "auth/" +:+ post)) = false)
  /\ (isAuthError code = false ->
      queriesRetry failureCount code = bool_decide (failureCount < 3)%nat
      /\ mutationsRetry failureCount code = bool_decide (failureCount < 2)%nat)
  /\ (forall later, (failureCount <= later)%nat ->
        (queriesRetry failureCount code = false -> queriesRetry later code = false)
        /\ (mutationsRetry failureCount code = false -> mutationsRetry later code = false))
  /\ (mutationsRetry failureCount code = true -> queriesRetry failureCount code = true).
Proof.
  unfold queriesRetry, mutationsRetry. split; [|split; [|split]].
  - intros pre post. unfold isAuthError. now rewrite includes_infix.
  - intros ->. split.
    + destruct (Nat.ltb_spec failureCount 3);
        [now rewrite bool_decide_eq_true_2 | rewrite bool_decide_eq_false_2; [reflexivity | lia]].
    + destruct (Nat.ltb_spec failureCount 2);
        [now rewrite bool_decide_eq_true_2 | rewrite bool_decide_eq_false_2; [reflexivity | lia]].
  - intros later Hle. destruct (isAuthError code); [now split|]. split; intros H.
    + apply Nat.ltb_ge in H. apply Nat.ltb_ge. lia.
    + apply Nat.ltb_ge in H. apply Nat.ltb_ge. lia.
  - destruct (isAuthError code); [discriminate|]. intros H.
    apply Nat.ltb_lt in H. apply Nat.ltb_lt. lia.
Qed.

End RetryFacts.

Section ErrorUtilsFacts.

Import ErrorUtils.

Lemma slice_append (marker s : string) :
  JS.slice (String.length marker) (marker +:+ s) = s.
Proof.
  induction marker as [|c marker IH]; [now destruct s|].
  rewrite append_cons. simpl. exact IH.
Qed.

Lemma upToParen_code (code post : string) :
  noParen code -> upToParen (code +:+ String ")" post) = Some code.
Proof.
  unfold noParen. induction code as [|c code IH]; intros H.
  - reflexivity.
  - rewrite append_cons. simpl in *.
    destruct (Ascii.eqb_spec c ")") as [->|_]; [exfalso; apply H; now left|].
    rewrite IH; [reflexivity|]. intros Hin. apply H. now right.
Qed.

Lemma upToParen_none (s : string) :
  noParen s -> upToParen s = None.
Proof.
  unfold noParen. induction s as [|c s IH]; intros H; [reflexivity|].
  simpl in *. destruct (Ascii.eqb_spec c ")") as [->|_]; [exfalso; apply H; now left|].
  rewrite IH; [reflexivity|]. intros Hin. apply H. now right.
Qed.

Lemma codeAt_head (marker code post : string) :
  code <> EmptyString -> noParen code ->
  codeAt marker (marker +:+ code +:+ String ")" post) = Some code.
Proof.
  intros Hne Hparen. unfold codeAt.
  rewrite prefix_append, slice_append, upToParen_code by exact Hparen.
  destruct (String.eqb_spec code ""); [contradiction | reflexivity].
Qed.

Lemma findCode_head (marker code post : string) :
  code <> EmptyString -> noParen code ->
  findCode marker (marker +:+ code +:+ String ")" post) = Some code.
Proof.
  intros Hne Hparen.
  destruct (marker +:+ code +:+ String ")" post) eqn:E;
    cbn [findCode]; rewrite <- E, codeAt_head by assumption; reflexivity.
Qed.

(** A text with no closing parenthesis holds no match. *)
Lemma codeAt_noParen (marker s : string) : noParen s -> codeAt marker s = None.
Proof.
  intros H. unfold codeAt. destruct (String.prefix marker s); [|reflexivity].
  rewrite upToParen_none; [reflexivity|].
  unfold noParen in *. intros Hin. apply H. clear H.
  revert s Hin. induction (String.length marker) as [|n IH]; intros s Hin; [exact Hin|].
  destruct s as [|c s]; [exact Hin|]. right. now apply IH.
Qed.

Lemma findCode_noParen (marker s : string) : noParen s -> findCode marker s = None.
Proof.
  induction s as [|c s IH]; intros H.
  - cbn [findCode]. now rewrite codeAt_noParen.
  - cbn [findCode]. rewrite codeAt_noParen by exact H. apply IH.
    unfold noParen in *. intros Hin. apply H. now right.
Qed.

Lemma replaceHyphens_chars (s : string) :
  ~ In "-"%char (list_ascii_of_string (replaceHyphens s))
  /\ String.length (replaceHyphens s) = String.length s.
Proof.
  induction s as [|c s [IH1 IH2]]; [split; [intros [] | reflexivity]|].
  simpl. split; [|now rewrite IH2].
  intros [H | H]; [|contradiction].
  destruct (Ascii.eqb_spec c "-"); [discriminate | congruence].
Qed.

Lemma table_rows : List.forallb rowChecks errorMessages = true.
Proof. vm_compute. reflexivity. Qed.

Lemma table_row (code text : string) :
  In (code, text) errorMessages ->
  code <> EmptyString /\ noParen code
  /\ formatAuthErrorCode code = Some text
  /\ cleanFirebaseError (newError text) = Some text.
Proof.
  intros Hin. pose proof table_rows as H.
  rewrite List.forallb_forall in H. specialize (H _ Hin).
  unfold rowChecks in H. simpl in H.
  apply andb_prop in H as [H H4]. apply andb_prop in H as [H H3].
  apply andb_prop in H as [H1 H2].
  apply bool_decide_eq_true in H3, H4.
  split; [|split; [|split; assumption]].
  - intros ->. discriminate.
  - unfold noParen. intros Hparen.
    apply negb_true_iff in H2.
    assert (List.existsb (Ascii.eqb ")") (list_ascii_of_string code) = true) as E.
    { apply List.existsb_exists. exists ")"%char. split; [exact Hparen | reflexivity]. }
    congruence.
Qed.

(** X22: an error of the identity provider, whose message begins with
    [Firebase: Error (auth/], a code and a closing parenthesis, is cleaned to
    what [formatAuthErrorCode] makes of the code, whatever follows the
    parenthesis and whatever [toString()] would give. *)
Theorem X22_provider_error_is_cleaned_to_its_code (code post toString : string) :
  code <> EmptyString ->
  noParen code ->
  cleanFirebaseError
    (Truthy (Some ("Firebase: Error (auth/" +:+ code +:+ String ")" post)) toString)
  = formatAuthErrorCode code.
Proof.
  intros Hne Hparen. unfold cleanFirebaseError, messageOf.
  destruct (String.eqb_spec ("Firebase: Error (auth/" +:+ code +:+ String ")" post) "")
    as [E|_]; [discriminate|].
  now rewrite findCode_head.
Qed.

(** The message the provider gives for a wrong password. *)
Lemma X22_provider_error_witness :
  cleanFirebaseError (newError "Firebase: Error (auth/wrong-password).")
  = Some "Incorrect password".
Proof.
  exact (X22_provider_error_is_cleaned_to_its_code "wrong-password" "."
           "Error: Firebase: Error (auth/wrong-password)."
           ltac:(discriminate)
           ltac:(vm_compute; intuition discriminate)).
Defined.

(** X23: a code that is not in the table (and is no name that object
    literals inherit) is shown as the code itself with every hyphen replaced
    by a space: the text shown has the length of the code and no hyphen.  A
    code of the table is shown as its text. *)
Theorem X23_codes_outside_the_table (code : string) :
  (lookupMessage code errorMessages = None ->
   code ∉ inheritedNames ->
   formatAuthErrorCode code = Some (replaceHyphens code)
   /\ ~ In "-"%char (list_ascii_of_string (replaceHyphens code))
   /\ String.length (replaceHyphens code) = String.length code)
  /\ (forall text, In (code, text) errorMessages -> formatAuthErrorCode code = Some text).
Proof.
  split.
  - intros Hnone Hown. unfold formatAuthErrorCode. rewrite Hnone.
    rewrite bool_decide_eq_false_2 by exact Hown.
    split; [reflexivity | apply replaceHyphens_chars].
  - intros text Hin. now apply table_row in Hin.
Qed.

(** X24: errors that carry no code.  A falsy value is shown as the fixed
    text for unexpected errors.  A message without a closing parenthesis is
    shown as it is, except that a leading [FirebaseError:] and the white
    space after it are removed; an empty message gives way to the text of
    [toString()]. *)
Theorem X24_errors_without_a_code (message toString : string) :
  cleanFirebaseError Falsy = Some "An unexpected error occurred"
  /\ (message <> EmptyString -> noParen message ->
      cleanFirebaseError (Truthy (Some message) toString)
      = Some (if String.prefix "FirebaseError:" message
              then Components.trimStart (JS.slice 14 message) else message))
  /\ cleanFirebaseError (Truthy (Some EmptyString) toString)
     = cleanFirebaseError (Truthy None toString).
Proof.
  split; [reflexivity|]. split; [|reflexivity].
  intros Hne Hparen. unfold cleanFirebaseError, messageOf.
  destruct (String.eqb_spec message ""); [contradiction|].
  rewrite findCode_noParen by exact Hparen.
  rewrite findCode_noParen; [reflexivity|].
  unfold stripPrefix. destruct (String.prefix "FirebaseError:" message); [|exact Hparen].
  unfold noParen in *. intros Hin. apply Hparen. clear -Hin.
  assert (forall s, In ")"%char (list_ascii_of_string (Components.trimStart s)) ->
                    In ")"%char (list_ascii_of_string s)) as Htrim.
  { induction s as [|c s IH]; [easy|]. simpl.
    destruct (Components.isSpace c); [intros H; right; now apply IH | easy]. }
  apply Htrim in Hin. clear Htrim.
  revert Hin. generalize 14%nat as n. intros n. revert message.
  induction n as [|n IH]; intros [|c s] Hin; try exact Hin. right. now apply IH.
Qed.

(** X25: the text a form shows for a known error.  The mutation cleans the
    provider's error and throws the result as a new error; the form cleans
    that error again.  For every code of the table the first cleaning gives
    the text of the table and the second leaves it as it is. *)
Theorem X25_known_errors_survive_the_second_cleaning (code text post : string) :
  In (code, text) errorMessages ->
  cleanFirebaseError (newError ("Firebase: Error (auth/" +:+ code +:+ String ")" post))
  = Some text
  /\ cleanFirebaseError (newError text) = Some text.
Proof.
  intros Hin. destruct (table_row code text Hin) as [Hne [Hparen [Hformat Hclean]]].
  split; [|exact Hclean].
  unfold newError, cleanFirebaseError, messageOf.
  destruct (String.eqb_spec ("Firebase: Error (auth/" +:+ code +:+ String ")" post) "")
    as [E|_]; [discriminate|].
  now rewrite findCode_head.
Qed.

Lemma X25_known_errors_witness :
  cleanFirebaseError (newError "Firebase: Error (auth/email-already-in-use).")
  = Some "An account with this email already exists"
  /\ cleanFirebaseError (newError "An account with this email already exists")
     = Some "An account with this email already exists".
Proof.
  apply (X25_known_errors_survive_the_second_cleaning "email-already-in-use"
           "An account with this email already exists" ".").
  vm_compute. tauto.
Defined.

End ErrorUtilsFacts.

Section LateEvents.

Import ChatContext Components.

Variable cl : Render.
Variable message : Utf16.text.
Variable cid : string.

Lemma applyEvent_lists_messages (s : Store) (timed : string * StreamEvent) :
  isErrorEvent (snd timed) = false ->
  is_Some (messagesData (queryClient (applyEvent cl message cid s timed)) !! cid).
Proof.
  destruct timed as [now ev]. intros Hev.
  destruct ev as [m|mid ts|c mid|mid|e]; try discriminate; cbn [applyEvent];
    unfold onUserMessage, onAssistantMessageStart, onContent, onEnd,
      updateCache, setState, addMessageToCache, updateMessageInCache;
    try destruct (isFirstExchange cl cid);
    cbn [queryClient setConversations messagesData setMessages];
    rewrite lookup_insert_eq; eauto.
Qed.

Lemma applyEvent_keeps_messages (s : Store) (timed : string * StreamEvent) :
  is_Some (messagesData (queryClient s) !! cid) ->
  is_Some (messagesData (queryClient (applyEvent cl message cid s timed)) !! cid).
Proof.
  intros Hs. destruct (isErrorEvent (snd timed)) eqn:Hev;
    [|now apply applyEvent_lists_messages].
  destruct timed as [now [m|mid ts|c mid|mid|e]]; try discriminate. exact Hs.
Qed.

Lemma applyEvents_keep_messages (events : list (string * StreamEvent)) (s : Store) :
  is_Some (messagesData (queryClient s) !! cid) ->
  is_Some (messagesData (queryClient (applyEvents cl message cid events s)) !! cid).
Proof.
  unfold applyEvents. revert s.
  induction events as [|timed events IH]; intros s Hs; [exact Hs|].
  cbn [foldl]. apply IH. now apply applyEvent_keeps_messages.
Qed.

Lemma applyEvents_list_messages (events : list (string * StreamEvent)) (s : Store) :
  List.forallb (fun timed => isErrorEvent (snd timed)) events = false ->
  is_Some (messagesData (queryClient (applyEvents cl message cid events s)) !! cid).
Proof.
  revert s. induction events as [|timed events IH]; intros s Hsome; [discriminate|].
  cbn [List.forallb] in Hsome.
  destruct (isErrorEvent (snd timed)) eqn:Hev.
  - cbn [andb] in Hsome. unfold applyEvents. cbn [foldl].
    replace (applyEvent cl message cid s timed)
      with (setState (withFailure "Failed to send message. Please try again.") s)
      by (destruct timed as [now [m|mid ts|c mid|mid|e]]; try discriminate; reflexivity).
    exact (IH _ Hsome).
  - unfold applyEvents. cbn [foldl].
    apply (applyEvents_keep_messages events). now apply applyEvent_lists_messages.
Qed.

Lemma applyEvents_errors_only (events : list (string * StreamEvent)) (s : Store) :
  List.forallb (fun timed => isErrorEvent (snd timed)) events = true ->
  queryClient (applyEvents cl message cid events s) = queryClient s.
Proof.
  unfold applyEvents. revert s.
  induction events as [|timed events IH]; intros s Hall; [reflexivity|].
  cbn [List.forallb] in Hall. apply andb_prop in Hall as [Hev Hall].
  cbn [foldl]. rewrite (IH _ Hall).
  destruct timed as [now [m|mid ts|c mid|mid|e]]; try discriminate; reflexivity.
Qed.

(** X26: events that arrive for a conversation after it was deleted.  The
    conversation does not come back into the list, whatever the events; but
    the first event that is not an error gives the deleted conversation a
    message list in the cache again (the appended user message, the appended
    empty reply of a start event, or the empty list for a content or end
    event), since every update starts from the empty list when the key has
    no data.  So the key has data after a sequence of events exactly when
    one of them is not an error. *)
Theorem X26_events_after_delete (s : Store) :
  let deleted := updateCache (deleteConversationSuccess cid) s in
  (forall events conv,
     In conv (conversationsOf (queryClient (applyEvents cl message cid events deleted))) ->
     Conversation.id conv <> cid)
  /\ (forall now m,
        messagesData (queryClient (applyEvent cl message cid deleted (now, UserMessageEvent m)))
          !! cid = Some [m])
  /\ (forall now mid ts,
        messagesData
          (queryClient (applyEvent cl message cid deleted (now, AssistantMessageStartEvent mid ts)))
          !! cid
        = Some [{| Message.id := mid; Message.role := RoleAssistant; Message.content := "";
                   Message.timestamp := ts; Message.isStreaming := Some true |}])
  /\ (forall now c mid,
        messagesData (queryClient (applyEvent cl message cid deleted (now, ContentEvent c mid)))
          !! cid = Some [])
  /\ (forall now mid,
        messagesData (queryClient (applyEvent cl message cid deleted (now, EndEvent mid)))
          !! cid = Some [])
  /\ (forall now e,
        messagesData (queryClient (applyEvent cl message cid deleted (now, ErrorEvent e)))
          !! cid = None)
  /\ (forall events,
        is_Some (messagesData (queryClient (applyEvents cl message cid events deleted)) !! cid)
        <-> List.forallb (fun timed => isErrorEvent (snd timed)) events = false).
Proof.
  intros deleted.
  assert (messagesData (queryClient deleted) !! cid = None) as Hnone
    by apply lookup_delete_eq.
  split; [|split; [|split; [|split; [|split; [|split]]]]].
  - intros events conv Hin Hid.
    destruct (applyEvents_frame cl message cid events deleted) as [_ [Hids _]].
    assert (In cid (List.map Conversation.id
                      (conversationsOf (queryClient (applyEvents cl message cid events deleted)))))
      as Hlisted by (apply List.in_map_iff; now exists conv).
    rewrite Hids in Hlisted. apply List.in_map_iff in Hlisted as [c [Hc Hcin]].
    now apply filter_none_left in Hcin.
  - intros now m. cbn [applyEvent]. unfold onUserMessage, updateCache, addMessageToCache.
    cbn [queryClient setConversations messagesData setMessages].
    now rewrite lookup_insert_eq, Hnone.
  - intros now mid ts. cbn [applyEvent].
    unfold onAssistantMessageStart, setState, updateCache, addMessageToCache.
    cbn [queryClient setConversations messagesData setMessages].
    now rewrite lookup_insert_eq, Hnone.
  - intros now c mid. cbn [applyEvent]. unfold onContent, updateCache, updateMessageInCache.
    cbn [queryClient messagesData setMessages].
    now rewrite lookup_insert_eq, Hnone.
  - intros now mid. cbn [applyEvent]. unfold onEnd.
    destruct (isFirstExchange cl cid); unfold updateCache, setState;
      cbn [queryClient setConversations messagesData setMessages];
      now rewrite lookup_insert_eq, Hnone.
  - intros now e. exact Hnone.
  - intros events. split.
    + intros Hsome.
      destruct (List.forallb (fun timed => isErrorEvent (snd timed)) events) eqn:Hall;
        [|reflexivity].
      rewrite (applyEvents_errors_only events deleted Hall), Hnone in Hsome.
      now destruct Hsome.
    + apply applyEvents_list_messages.
Qed.

Lemma isStreaming_kept (events : list (string * StreamEvent)) (s : Store) :
  List.forallb (fun timed => negb (isEnding (snd timed))) events = true ->
  isStreaming (state s) = true ->
  isStreaming (state (applyEvents cl message cid events s)) = true.
Proof.
  unfold applyEvents. revert s.
  induction events as [|[now ev] events IH]; intros s Hall Hs; [exact Hs|].
  cbn [List.forallb snd] in Hall. apply andb_prop in Hall as [Hev Hall].
  cbn [foldl]. apply IH; [exact Hall|].
  destruct ev as [m|mid ts|c mid|mid|e]; try discriminate; try exact Hs; reflexivity.
Qed.

Lemma streamingMessageId_kept (events : list (string * StreamEvent)) (s : Store) :
  List.forallb (fun timed => negb (isEnding (snd timed))) events = true ->
  streamingMessageId (state s) <> None ->
  streamingMessageId (state (applyEvents cl message cid events s)) <> None.
Proof.
  unfold applyEvents. revert s.
  induction events as [|[now ev] events IH]; intros s Hall Hs; [exact Hs|].
  cbn [List.forallb snd] in Hall. apply andb_prop in Hall as [Hev Hall].
  cbn [foldl]. apply IH; [exact Hall|].
  destruct ev as [m|mid ts|c mid|mid|e]; try discriminate; exact Hs.
Qed.

End LateEvents.

Section UnendedReply.

Import ChatContext Components.

(** A send by a signed-in user that has a conversation to go to, the one
    asked for, the selected one or the one it creates, and whose stream
    resolves, is the stream's events applied by the callbacks for that
    conversation. *)
Lemma sendMessage_resolved (cl : Render) (x : Exchange) (message : Utf16.text)
  (conversationId : option string) (uid : string) (s : Store) :
  user cl = Some uid ->
  truthy (orElse conversationId (currentConversationId (renderedState cl))) = true
  \/ is_Some (created x) ->
  settled x = ChatAPI.Resolved ->
  exists cid s2,
    sendMessage cl x message conversationId s = applyEvents cl message cid (events x) s2.
Proof.
  intros Hu Htarget Hok. unfold sendMessage. rewrite Hu, Hok.
  destruct (truthy (orElse conversationId (currentConversationId (renderedState cl))))
    eqn:Hwanted.
  - destruct (orElse conversationId (currentConversationId (renderedState cl)))
      as [cid|]; [|discriminate].
    now exists cid, (setState (withError None) s).
  - destruct Htarget as [Hfalse | [conv Hconv]]; [discriminate|].
    rewrite Hconv. simpl.
    now exists (Conversation.id conv),
      (createNewConversation conv (setState (withError None) s)).
Qed.

(** X27: a stream that stops after a started reply.  Whatever conversation
    the send goes to (the one named in the call, the selected one, or one
    the send creates), when the events of a resolved stream hold a start
    event that no end or error event follows, [sendMessage] returns with the
    state still streaming, and the input box rendered from that state sends
    nothing, whatever is typed: nothing in the send clears the flag when the
    stream just ends. *)
Theorem X27_unended_reply_blocks_the_input (cl : Render) (message : Utf16.text)
  (conversationId : option string) (u : option string) (x : Exchange)
  (uid now mid ts : string) (before after : list (string * StreamEvent)) (s : Store) :
  user cl = Some uid ->
  truthy (orElse conversationId (currentConversationId (renderedState cl))) = true
  \/ is_Some (created x) ->
  settled x = ChatAPI.Resolved ->
  events x = before ++ (now, AssistantMessageStartEvent mid ts) :: after ->
  List.forallb (fun timed => negb (isEnding (snd timed))) after = true ->
  let final := sendMessage cl x message conversationId s in
  isStreaming (state final) = true
  /\ streamingMessageId (state final) <> None
  /\ forall value, sendFromInput (render u final) value = None.
Proof.
  intros Hu Htarget Hok Hevents Hafter final.
  destruct (sendMessage_resolved cl x message conversationId uid s Hu Htarget Hok)
    as [cid [s2 Hfinal]].
  fold final in Hfinal.
  assert (isStreaming (state final) = true) as Hstreaming.
  { rewrite Hfinal, Hevents. unfold applyEvents. rewrite foldl_app. cbn [foldl].
    apply isStreaming_kept; [exact Hafter | reflexivity]. }
  split; [exact Hstreaming|]. split.
  - rewrite Hfinal, Hevents. unfold applyEvents. rewrite foldl_app. cbn [foldl].
    apply streamingMessageId_kept; [exact Hafter | discriminate].
  - intros value. unfold sendFromInput, handleSendClick. cbn [render renderedState].
    rewrite Hstreaming. now rewrite andb_false_r.
Qed.

End UnendedReply.

(** The stream stops after the first fragment of the reply, in the selected
    conversation of the sample store and in the conversation created by the
    first send of a session: the state is left streaming and the input sends
    nothing. *)
Lemma X27_unended_reply_witness :
  let x (created : option ChatContext.Conversation.t) :=
    {| ChatContext.created := created;
       ChatContext.events :=
         [("n1", ChatContext.UserMessageEvent Samples.question)]
         ++ ("n2", ChatContext.AssistantMessageStartEvent "a1" "t2")
            :: [("n3", ChatContext.ContentEvent "Hel" "a1")];
       ChatContext.settled := ChatAPI.Resolved |} in
  let empty :=
    {| ChatContext.queryClient :=
         {| ChatContext.conversationsData := None; ChatContext.messagesData := ∅ |};
       ChatContext.state := Samples.idle None |} in
  let selected :=
    ChatContext.sendMessage (ChatContext.render (Some "uid") Samples.store) (x None)
      (Utf16.literal "Hi") None Samples.store in
  let first :=
    ChatContext.sendMessage (ChatContext.render (Some "uid") empty)
      (x (Some (Samples.conversation "c9" "New Chat"))) (Utf16.literal "Hi") None empty in
  (ChatContext.isStreaming (ChatContext.state selected) = true
   /\ ChatContext.streamingMessageId (ChatContext.state selected) <> None
   /\ forall value,
        Components.sendFromInput (ChatContext.render (Some "uid") selected) value = None)
  /\ (ChatContext.isStreaming (ChatContext.state first) = true
      /\ ChatContext.streamingMessageId (ChatContext.state first) <> None
      /\ forall value,
           Components.sendFromInput (ChatContext.render (Some "uid") first) value = None).
Proof.
  intros x empty. split.
  - exact (X27_unended_reply_blocks_the_input
             (ChatContext.render (Some "uid") Samples.store) (Utf16.literal "Hi") None
             (Some "uid") (x None) "uid" "n2" "a1" "t2"
             [("n1", ChatContext.UserMessageEvent Samples.question)]
             [("n3", ChatContext.ContentEvent "Hel" "a1")] Samples.store
             eq_refl (or_introl eq_refl) eq_refl eq_refl eq_refl).
  - exact (X27_unended_reply_blocks_the_input
             (ChatContext.render (Some "uid") empty) (Utf16.literal "Hi") None
             (Some "uid") (x (Some (Samples.conversation "c9" "New Chat")))
             "uid" "n2" "a1" "t2"
             [("n1", ChatContext.UserMessageEvent Samples.question)]
             [("n3", ChatContext.ContentEvent "Hel" "a1")] empty
             eq_refl (or_intror (mk_is_Some _ _ eq_refl)) eq_refl eq_refl eq_refl).
Defined.
